(** * ResidualHeapInspector: leaf classification and omissible properties

    A shallow embedding of [src/serializer/ResidualHeapInspector.js].

    Prepack values are JavaScript objects: a [Value] instance has an identity
    (its reference), a class and fields.  The residual heap is therefore
    modelled as a store from references to value records; every [===] of the
    source that compares two values compares references, and a field read
    [val.f] is a read of the record stored at [val].  The inspector's own
    state ([this.realm], [this.logger], [this.ignoredProperties]) is threaded
    explicitly through a small state-and-exception monad. *)

From Stdlib Require Import String List Bool Arith.
From Stdlib Require Import Floats.SpecFloat.
From stdpp Require Import base gmap list strings.

Open Scope string_scope.
Open Scope list_scope.

(** ** References and JavaScript primitives *)

(** The identity of a [Value] instance. *)
Definition Ref := nat.

(** What the [.value] field of a value instance can hold: a JavaScript
    primitive (a number for [NumberValue], a string for [StringValue], a
    boolean for [BooleanValue]) or nothing at all. *)
Inductive JSPrimitive :=
| JSundefined
| JSboolean (b : bool)
| JSnumber (x : spec_float)
| JSstring (s : string).

(** JavaScript [===] on primitives: same type and same value; numbers compare
    as IEEE doubles (NaN differs from itself, both zeros are equal). *)
Definition strictEq (a b : JSPrimitive) : bool :=
  match a, b with
  | JSundefined, JSundefined => true
  | JSboolean x, JSboolean y => Bool.eqb x y
  | JSnumber x, JSnumber y => SFeqb x y
  | JSstring x, JSstring y => String.eqb x y
  | _, _ => false
  end.

(** [===] between two possibly-absent references ([void | Value]). *)
Definition sameRef (a b : option Ref) : bool :=
  match a, b with
  | None, None => true
  | Some x, Some y => Nat.eqb x y
  | _, _ => false
  end.

(** ** The class hierarchy *)

Module Class.

(** Modelled from the spec: the class declarations of [../values/index.js]
    are not part of the inspected file, which only imports them and tests
    [instanceof] against them.  The hierarchy below is the value-category
    union of the data model (§3): abstract values; concrete values, split
    into primitives (undefined, null, booleans, numbers, strings and, as in
    the language, symbols) and objects, with functions a subtype of objects
    and source-defined functions a subtype of functions.  The statements
    below only rely on the outcome of the [instanceof] tests. *)
Inductive t :=
| Value
| AbstractValue
| AbstractObjectValue
| ConcreteValue
| EmptyValue
| PrimitiveValue
| UndefinedValue
| NullValue
| BooleanValue
| NumberValue
| StringValue
| SymbolValue
| ObjectValue
| ArrayValue
| ProxyValue
| FunctionValue
| NativeFunctionValue
| BoundFunctionValue
| ECMAScriptFunctionValue
| ECMAScriptSourceFunctionValue.

Definition eqb (a b : t) : bool :=
  match a, b with
  | Value, Value | AbstractValue, AbstractValue
  | AbstractObjectValue, AbstractObjectValue
  | ConcreteValue, ConcreteValue | EmptyValue, EmptyValue
  | PrimitiveValue, PrimitiveValue | UndefinedValue, UndefinedValue
  | NullValue, NullValue | BooleanValue, BooleanValue
  | NumberValue, NumberValue | StringValue, StringValue
  | SymbolValue, SymbolValue | ObjectValue, ObjectValue
  | ArrayValue, ArrayValue | ProxyValue, ProxyValue
  | FunctionValue, FunctionValue
  | NativeFunctionValue, NativeFunctionValue
  | BoundFunctionValue, BoundFunctionValue
  | ECMAScriptFunctionValue, ECMAScriptFunctionValue
  | ECMAScriptSourceFunctionValue, ECMAScriptSourceFunctionValue => true
  | _, _ => false
  end.

(** The [extends] clause of each class. *)
Definition super (c : t) : option t :=
  match c with
  | Value => None
  | AbstractValue | ConcreteValue => Some Value
  | AbstractObjectValue => Some AbstractValue
  | EmptyValue | PrimitiveValue | ObjectValue => Some ConcreteValue
  | UndefinedValue | NullValue | BooleanValue | NumberValue | StringValue
  | SymbolValue => Some PrimitiveValue
  | ArrayValue | ProxyValue | FunctionValue => Some ObjectValue
  | NativeFunctionValue | BoundFunctionValue | ECMAScriptFunctionValue =>
      Some FunctionValue
  | ECMAScriptSourceFunctionValue => Some ECMAScriptFunctionValue
  end.

(** The prototype chain walked by [instanceof]; the hierarchy is five
    levels deep, so [depth] steps reach the root from any class. *)
Definition depth : nat := 6.

Fixpoint chain (fuel : nat) (c : t) : list t :=
  match fuel with
  | O => []
  | S fuel' =>
      c :: match super c with
           | Some p => chain fuel' p
           | None => []
           end
  end.

Definition subclass (c C : t) : bool := existsb (eqb C) (chain depth c).

End Class.

(** ** Descriptors, bindings and value records *)

Module Descriptor.
(** Modelled from the spec: the [Descriptor] type of [../types.js] is not part
    of the inspected file.  §3: [{ value?: Value, writable, enumerable,
    configurable }]; an accessor descriptor is one whose [value] is absent. *)
Record t := mk {
  value : option Ref;
  writable : bool;
  enumerable : bool;
  configurable : bool
}.
End Descriptor.

Module PropertyBinding.
(** Modelled from the spec: the [PropertyBinding] type of [../types.js] is not
    part of the inspected file.  §3: a binding wraps an optional descriptor,
    and a binding whose descriptor is absent stands for a deleted property. *)
Record t := mk { descriptor : option Descriptor.t }.
End PropertyBinding.

Module Value.
(** Modelled from the spec: the fields and methods of the value classes are
    declared outside the inspected file.  A record is one value instance,
    with the fields and method results that the inspector reads (§3); which
    fields mean something depends on [class], as in JavaScript.  The methods
    [isIntrinsic], [hasIdentifier], [getExtensible], [getKind] and
    [hasDefaultLength] are taken by their results.  [_Prototype], [_Strict]
    and [_FunctionKind] are the internal slots [$Prototype], [$Strict] and
    [$FunctionKind]; [properties] is the insertion-ordered map from names to
    bindings, [symbols] the map of symbol-keyed bindings. *)
Record t := mk {
  class : Class.t;
  isIntrinsic : bool;
  hasIdentifier : bool;
  value : JSPrimitive;
  properties : list (string * PropertyBinding.t);
  symbols : list (Ref * PropertyBinding.t);
  _Prototype : Ref;
  getExtensible : bool;
  originalConstructor : option Ref;
  getKind : string;
  __originalName : option string;
  hasDefaultLength : bool;
  _Strict : bool;
  _FunctionKind : string
}.
End Value.

(** The heap snapshot: what each reference points to. *)
Definition Heap := Ref -> Value.t.

(** [val instanceof C]. *)
Definition instanceof (h : Heap) (val : Ref) (C : Class.t) : bool :=
  Class.subclass (Value.class (h val)) C.

(** ** JavaScript [Map] and [Set] as the inspector uses them *)

(** [Map.prototype.get] on an insertion-ordered map with string keys. *)
Fixpoint Map_get {A} (m : list (string * A)) (k : string) : option A :=
  match m with
  | [] => None
  | (k', a) :: m' => if String.eqb k' k then Some a else Map_get m' k
  end.

(** [Map.prototype.keys], in insertion order. *)
Definition Map_keys {A} (m : list (string * A)) : list string := map fst m.

(** [Set.prototype.has] and [Set.prototype.add] on a set of strings kept in
    insertion order. *)
Definition Set_has (s : list string) (k : string) : bool :=
  existsb (String.eqb k) s.

Definition Set_add (s : list string) (k : string) : list string :=
  if Set_has s k then s else s ++ [k].

(** ** Leaf classification *)

(** [static isLeaf(val: Value): boolean]. *)
Definition isLeaf (h : Heap) (val : Ref) : bool :=
  if instanceof h val Class.SymbolValue then false
  else if instanceof h val Class.AbstractValue
          && Value.hasIdentifier (h val) then true
  else if Value.isIntrinsic (h val) then false
  else instanceof h val Class.PrimitiveValue.

(** ** The realm, the diagnostics sink and the inspector's state *)

Module Realm.
(** Modelled from the spec: [../realm.js] is not part of the inspected file.
    The execution context exposes the base object prototype intrinsic
    ([realm.intrinsics.ObjectPrototype]) and a compatibility-mode predicate
    ([realm.isCompatibleWith]) asked about the legacy profile
    [realm.MOBILE_JSC_VERSION]. *)
Record t := mk {
  ObjectPrototype : Ref;
  MOBILE_JSC_VERSION : string;
  isCompatibleWith : string -> bool
}.
End Realm.

(** Everything a call of the inspector can see or touch: the heap snapshot,
    [this.realm], [this.logger], taken as the messages the sink has received
    so far, and the memoization table [this.ignoredProperties], keyed by
    object identity.  [scanned] is ghost state: the objects for which
    [_getIgnoredProperties] has been entered, in order; no decision reads
    it. *)
Record World := mkWorld {
  heap : Heap;
  realm : Realm.t;
  logger : list (Ref * string);
  ignoredProperties : gmap Ref (list string);
  scanned : list Ref
}.

(** [new ResidualHeapInspector(realm, logger)] over a heap snapshot. *)
Definition newInspector (h : Heap) (r : Realm.t) (log : list (Ref * string)) : World :=
  {| heap := h; realm := r; logger := log; ignoredProperties := ∅; scanned := [] |}.

(** A call either returns or aborts on a failed [invariant]. *)
Inductive Outcome (A : Type) :=
| Return (a : A)
| InvariantViolation.
Arguments Return {A} a.
Arguments InvariantViolation {A}.

Definition M (A : Type) : Type := World -> Outcome A * World.

Definition ret {A : Type} (a : A) : M A := fun w => (Return a, w).

Definition bind {A B : Type} (m : M A) (f : A -> M B) : M B := fun w =>
  match m w with
  | (Return a, w') => f a w'
  | (InvariantViolation, w') => (InvariantViolation, w')
  end.

Declare Scope inspector_scope.
Delimit Scope inspector_scope with inspector.
Notation "x <- c1 ;; c2" := (bind c1 (fun x => c2))
  (at level 100, c1 at next level, right associativity) : inspector_scope.
Notation "c1 ;; c2" := (bind c1 (fun _ => c2))
  (at level 100, right associativity) : inspector_scope.
Open Scope inspector_scope.

Definition getWorld : M World := fun w => (Return w, w).

(** [invariant(condition)]. *)
Definition invariant (condition : bool) : M unit :=
  fun w => if condition then (Return tt, w) else (InvariantViolation, w).

(** [this.logger.logError(val, message)]: the sink records the call and
    returns. *)
Definition logError (val : Ref) (message : string) : M unit :=
  fun w => (Return tt,
            {| heap := heap w; realm := realm w;
               logger := logger w ++ [(val, message)];
               ignoredProperties := ignoredProperties w;
               scanned := scanned w |}).

(** [this.ignoredProperties.set(val, set)]. *)
Definition ignoredProperties_set (val : Ref) (set : list string) : M unit :=
  fun w => (Return tt,
            {| heap := heap w; realm := realm w; logger := logger w;
               ignoredProperties := <[val := set]> (ignoredProperties w);
               scanned := scanned w |}).

(** Ghost: note that a full scan of [val] starts. *)
Definition noteScan (val : Ref) : M unit :=
  fun w => (Return tt,
            {| heap := heap w; realm := realm w; logger := logger w;
               ignoredProperties := ignoredProperties w;
               scanned := scanned w ++ [val] |}).

(** ** Reading a property value *)

(** [static getPropertyValue(val: ObjectValue, name: string): void | Value]. *)
Definition getPropertyValue (h : Heap) (val : Ref) (name : string) : option Ref :=
  match Map_get (Value.properties (h val)) name with
  | None => None
  | Some prototypeBinding =>
      match PropertyBinding.descriptor prototypeBinding with
      | None => None
      | Some prototypeDesc => Descriptor.value prototypeDesc
      end
  end.

(** ** Default-prototype detection *)

(** The loop of [isDefaultPrototype] over [prototype.properties.keys()]: the
    first name that is not a matching [constructor] ends it with [false]. *)
Fixpoint isDefaultPrototype_loop (h : Heap) (prototype : Ref)
    (names : list string) (foundConstructor : bool) : bool :=
  match names with
  | [] => foundConstructor
  | name :: rest =>
      if String.eqb name "constructor"
         && sameRef (getPropertyValue h prototype name)
                    (Value.originalConstructor (h prototype))
      then isDefaultPrototype_loop h prototype rest true
      else false
  end.

(** [isDefaultPrototype(prototype: ObjectValue): boolean]; it reads
    [this.realm] and the heap and changes nothing. *)
Definition isDefaultPrototype (w : World) (prototype : Ref) : bool :=
  let h := heap w in
  if negb (Nat.eqb (length (Value.symbols (h prototype))) 0)
     || negb (Nat.eqb (Value._Prototype (h prototype))
                      (Realm.ObjectPrototype (realm w)))
     || negb (Value.getExtensible (h prototype))
  then false
  else isDefaultPrototype_loop h prototype
         (Map_keys (Value.properties (h prototype))) false.

(** ** Property omissibility *)

(** [x instanceof C] for a possibly-absent [x]. *)
Definition instanceof_opt (h : Heap) (x : option Ref) (C : Class.t) : bool :=
  match x with
  | Some v => instanceof h v C
  | None => false
  end.

Definition length_accessor_message : string :=
  "Functions with length accessor properties are not supported in residual heap.".

Section Inspector.

(** [IsArray(realm, val)] of [../methods/index.js], defined outside the
    inspected file: array-kind detection is taken as given. *)
Variable IsArray : Realm.t -> Heap -> Ref -> bool.

(** The last rule of [_canIgnoreProperty], reached by every path that has
    not returned: the [constructor] property. *)
Definition constructor_rule (h : Heap) (val : Ref) (key : string)
    (desc : Descriptor.t) : bool :=
  if String.eqb key "constructor"
  then if Descriptor.configurable desc
          && negb (Descriptor.enumerable desc)
          && Descriptor.writable desc
          && sameRef (Descriptor.value desc) (Value.originalConstructor (h val))
       then true else false
  else false.

(** The condition under which the [name] rule answers [false]. *)
Definition name_retained (w : World) (val : Ref) (desc : Descriptor.t) : bool :=
  match Descriptor.value desc with
  | None => false
  | Some v =>
      negb (Realm.isCompatibleWith (realm w) (Realm.MOBILE_JSC_VERSION (realm w)))
      && (instanceof (heap w) v Class.AbstractValue
          || match Value.__originalName (heap w val) with
             | None => false
             | Some originalName =>
                 negb (String.eqb originalName "")
                 && negb (String.eqb originalName "")
                 && negb (strictEq (Value.value (heap w v)) (JSstring originalName))
             end)
  end.

(** [_canIgnoreProperty(val: ObjectValue, key: string, desc: Descriptor)]. *)
Definition _canIgnoreProperty (val : Ref) (key : string) (desc : Descriptor.t)
    : M bool :=
  w <- getWorld;;
  let h := heap w in
  if IsArray (realm w) h val then
    if String.eqb key "length"
       && Descriptor.writable desc
       && negb (Descriptor.enumerable desc)
       && negb (Descriptor.configurable desc)
    then ret true
    else ret (constructor_rule h val key desc)
  else if instanceof h val Class.FunctionValue then
    if String.eqb key "length" then
      (match Descriptor.value desc with
       | None => logError val length_accessor_message
       | Some _ => ret tt
       end);;
      ret (negb (Descriptor.writable desc)
            && negb (Descriptor.enumerable desc)
            && Descriptor.configurable desc
            && Value.hasDefaultLength (h val))
    else if String.eqb key "name" then
      if name_retained w val desc then ret false else ret true
    else
      poisonPill <-
        (if String.eqb key "arguments" || String.eqb key "caller" then
           invariant (instanceof h val Class.ECMAScriptSourceFunctionValue);;
           ret (negb (Value._Strict (h val))
                 && Descriptor.writable desc
                 && negb (Descriptor.enumerable desc)
                 && Descriptor.configurable desc
                 && instanceof_opt h (Descriptor.value desc) Class.UndefinedValue
                 && String.eqb (Value._FunctionKind (h val)) "normal")
         else ret false);;
      if poisonPill then ret true
      else if String.eqb key "prototype"
              && (negb (Descriptor.configurable desc)
                  && negb (Descriptor.enumerable desc)
                  && Descriptor.writable desc
                  && instanceof_opt h (Descriptor.value desc) Class.ObjectValue
                  && match Descriptor.value desc with
                     | Some v => sameRef (Value.originalConstructor (h v)) (Some val)
                     | None => false
                     end)
      then ret true
      else ret (constructor_rule h val key desc)
  else
    if String.eqb (Value.getKind (h val)) "RegExp"
       && (String.eqb key "lastIndex"
           && Descriptor.writable desc
           && negb (Descriptor.enumerable desc)
           && negb (Descriptor.configurable desc))
    then
      ret (match Descriptor.value desc with
            | Some v => instanceof h v Class.NumberValue
                        && strictEq (Value.value (h v)) (JSnumber (S754_zero false))
            | None => false
            end)
    else ret (constructor_rule h val key desc).

(** The loop of [_getIgnoredProperties] over the entries of
    [val.properties]; [invariant(propertyBinding)] holds of every entry of
    the map, and a binding without descriptor is skipped. *)
Fixpoint _getIgnoredProperties_loop (val : Ref)
    (entries : list (string * PropertyBinding.t)) (set : list string)
    : M (list string) :=
  match entries with
  | [] => ret set
  | (key, propertyBinding) :: rest =>
      match PropertyBinding.descriptor propertyBinding with
      | None => _getIgnoredProperties_loop val rest set
      | Some desc =>
          ignore <- _canIgnoreProperty val key desc;;
          _getIgnoredProperties_loop val rest
            (if ignore then Set_add set key else set)
      end
  end.

(** [_getIgnoredProperties(val: ObjectValue)]. *)
Definition _getIgnoredProperties (val : Ref) : M (list string) :=
  noteScan val;;
  w <- getWorld;;
  _getIgnoredProperties_loop val (Value.properties (heap w val)) [].

(** [canIgnoreProperty(val: ObjectValue, key: string)]. *)
Definition canIgnoreProperty (val : Ref) (key : string) : M bool :=
  w <- getWorld;;
  match ignoredProperties w !! val with
  | Some set => ret (Set_has set key)
  | None =>
      set <- _getIgnoredProperties val;;
      ignoredProperties_set val set;;
      ret (Set_has set key)
  end.

End Inspector.

(** ** A pass: calls made one after the other *)

(** The four operations the traversal driver can invoke. *)
Inductive Call :=
| Call_isLeaf (val : Ref)
| Call_canIgnoreProperty (val : Ref) (key : string)
| Call_isDefaultPrototype (prototype : Ref)
| Call_getPropertyValue (val : Ref) (name : string).

Inductive Answer :=
| Answer_bool (b : bool)
| Answer_value (v : option Ref).

Section Pass.

Variable IsArray : Realm.t -> Heap -> Ref -> bool.

Definition exec (c : Call) : M Answer :=
  match c with
  | Call_isLeaf val =>
      w <- getWorld;; ret (Answer_bool (isLeaf (heap w) val))
  | Call_canIgnoreProperty val key =>
      b <- canIgnoreProperty IsArray val key;; ret (Answer_bool b)
  | Call_isDefaultPrototype prototype =>
      w <- getWorld;; ret (Answer_bool (isDefaultPrototype w prototype))
  | Call_getPropertyValue val name =>
      w <- getWorld;; ret (Answer_value (getPropertyValue (heap w) val name))
  end.

(** The calls of one pass, in order; a failed [invariant] aborts the pass. *)
Fixpoint run (cs : list Call) : M (list Answer) :=
  match cs with
  | [] => ret []
  | c :: cs' =>
      a <- exec c;;
      rest <- run cs';;
      ret (a :: rest)
  end.

End Pass.


(** * Vocabulary of the statements *)

(** Two worlds with the same heap, realm, table and scan history, the second
    having at most received further messages in its log. *)
Definition same_but_log (w w' : World) : Prop :=
  heap w' = heap w /\ realm w' = realm w
  /\ ignoredProperties w' = ignoredProperties w /\ scanned w' = scanned w
  /\ exists messages, logger w' = logger w ++ messages.

(** The shape test of the [length] rule for functions. *)
Definition length_shape (w : World) (val : Ref) (desc : Descriptor.t) : bool :=
  negb (Descriptor.writable desc)
  && negb (Descriptor.enumerable desc)
  && Descriptor.configurable desc
  && Value.hasDefaultLength (heap w val).

(** The poison-pill shape of [arguments] and [caller]. *)
Definition poison_pill_shape (w : World) (desc : Descriptor.t) : bool :=
  Descriptor.writable desc
  && negb (Descriptor.enumerable desc)
  && Descriptor.configurable desc
  && instanceof_opt (heap w) (Descriptor.value desc) Class.UndefinedValue.

Section Pass_invariant.

Variable IsArray : Realm.t -> Heap -> Ref -> bool.

(** Every cached set is the set a scan of that object yields. *)
Definition memo_sound (w : World) : Prop :=
  forall val set,
    ignoredProperties w !! val = Some set ->
    fst (_getIgnoredProperties IsArray val w) = Return set.

(** Every object whose scan has been entered has its set in the table. *)
Definition scans_memoized (w : World) : Prop :=
  forall val, In val (scanned w) -> is_Some (ignoredProperties w !! val).

Definition pass_invariant (w : World) : Prop :=
  memo_sound w /\ NoDup (scanned w) /\ scans_memoized w.

End Pass_invariant.

(** What a call or a pass may do to the world: heap and realm stay, the
    table keeps every entry it has, the log is only appended to. *)
Definition only_memoizes (w w' : World) : Prop :=
  heap w' = heap w /\ realm w' = realm w
  /\ (forall val set,
        ignoredProperties w !! val = Some set ->
        ignoredProperties w' !! val = Some set)
  /\ exists messages, logger w' = logger w ++ messages.

(** ** The claims as the specification words them *)

(** The own enumerable properties of an object: the bindings that have a
    descriptor whose [enumerable] flag is set. *)
Definition ownEnumerableProperties (h : Heap) (val : Ref)
    : list (string * Descriptor.t) :=
  flat_map (fun entry : string * PropertyBinding.t =>
              match PropertyBinding.descriptor (snd entry) with
              | Some desc =>
                  if Descriptor.enumerable desc then [(fst entry, desc)] else []
              | None => []
              end)
           (Value.properties (h val)).

(** The own properties that are present: the bindings that have a
    descriptor. *)
Definition presentProperties (h : Heap) (val : Ref)
    : list (string * PropertyBinding.t) :=
  filter (fun entry : string * PropertyBinding.t =>
            is_Some (PropertyBinding.descriptor (snd entry)))
         (Value.properties (h val)).

(** §4.3 as worded: no symbol-keyed properties, the base object prototype as
    prototype link, extensible, and an own enumerable property set made of
    exactly one property, named [constructor], whose value is the object's
    [originalConstructor]. *)
Definition stated_default_prototype (w : World) (prototype : Ref) : Prop :=
  Value.symbols (heap w prototype) = []
  /\ Value._Prototype (heap w prototype) = Realm.ObjectPrototype (realm w)
  /\ Value.getExtensible (heap w prototype) = true
  /\ exists desc,
       ownEnumerableProperties (heap w) prototype = [("constructor", desc)]
       /\ Descriptor.value desc = Value.originalConstructor (heap w prototype).

(** §4.2 as worded, for [arguments] and [caller]: a strict or non-"normal"
    function is kept from the shape test by the internal consistency check,
    that is, the check fails on it. *)
Definition stated_poison_pill_guard
    (IsArray : Realm.t -> Heap -> Ref -> bool) (w : World) (val : Ref)
    (key : string) (desc : Descriptor.t) : Prop :=
  Value._Strict (heap w val) = true
  \/ Value._FunctionKind (heap w val) <> "normal" ->
  fst (_canIgnoreProperty IsArray val key desc w) = InvariantViolation.

(** §4.2 as worded, for [name]: the property is kept exactly when the
    descriptor holds a value, the realm is not in the legacy mode, and the
    value is abstract or the function has a recorded original name different
    from the literal the value holds. *)
Definition stated_name_kept (w : World) (val : Ref) (desc : Descriptor.t) : Prop :=
  exists v,
    Descriptor.value desc = Some v
    /\ Realm.isCompatibleWith (realm w) (Realm.MOBILE_JSC_VERSION (realm w)) = false
    /\ (instanceof (heap w) v Class.AbstractValue = true
        \/ exists originalName,
             Value.__originalName (heap w val) = Some originalName
             /\ strictEq (Value.value (heap w v)) (JSstring originalName) = false).

(** §8 as worded, for deleted properties: a binding without descriptor is not
    in the property set [isDefaultPrototype] examines, so two objects that
    agree on everything but such bindings get the same verdict. *)
Definition stated_deleted_unseen (w : World) (a b : Ref) : Prop :=
  Value.symbols (heap w a) = Value.symbols (heap w b) ->
  Value._Prototype (heap w a) = Value._Prototype (heap w b) ->
  Value.getExtensible (heap w a) = Value.getExtensible (heap w b) ->
  Value.originalConstructor (heap w a) = Value.originalConstructor (heap w b) ->
  presentProperties (heap w) a = presentProperties (heap w) b ->
  isDefaultPrototype w a = isDefaultPrototype w b.

(** * A sample heap *)

Definition primitiveValue (c : Class.t) (v : JSPrimitive) : Value.t :=
  {| Value.class := c; Value.isIntrinsic := false; Value.hasIdentifier := false;
     Value.value := v; Value.properties := []; Value.symbols := [];
     Value._Prototype := 0; Value.getExtensible := false;
     Value.originalConstructor := None; Value.getKind := "";
     Value.__originalName := None; Value.hasDefaultLength := false;
     Value._Strict := false; Value._FunctionKind := "" |}.

Definition abstractValue (intrinsic identifier : bool) : Value.t :=
  {| Value.class := Class.AbstractValue; Value.isIntrinsic := intrinsic;
     Value.hasIdentifier := identifier;
     Value.value := JSundefined; Value.properties := []; Value.symbols := [];
     Value._Prototype := 0; Value.getExtensible := false;
     Value.originalConstructor := None; Value.getKind := "";
     Value.__originalName := None; Value.hasDefaultLength := false;
     Value._Strict := false; Value._FunctionKind := "" |}.

Definition objectValue (intrinsic : bool)
    (props : list (string * PropertyBinding.t)) (proto : Ref)
    (ctor : option Ref) : Value.t :=
  {| Value.class := Class.ObjectValue; Value.isIntrinsic := intrinsic;
     Value.hasIdentifier := false;
     Value.value := JSundefined; Value.properties := props; Value.symbols := [];
     Value._Prototype := proto; Value.getExtensible := true;
     Value.originalConstructor := ctor; Value.getKind := "Object";
     Value.__originalName := None; Value.hasDefaultLength := false;
     Value._Strict := false; Value._FunctionKind := "" |}.

Definition functionValue (c : Class.t) (props : list (string * PropertyBinding.t))
    (name : option string) (strict : bool) (kind : string) : Value.t :=
  {| Value.class := c; Value.isIntrinsic := false; Value.hasIdentifier := false;
     Value.value := JSundefined; Value.properties := props; Value.symbols := [];
     Value._Prototype := 0; Value.getExtensible := true;
     Value.originalConstructor := None; Value.getKind := "Object";
     Value.__originalName := name; Value.hasDefaultLength := true;
     Value._Strict := strict; Value._FunctionKind := kind |}.

Definition dataProperty (v : option Ref) (w e c : bool) : PropertyBinding.t :=
  {| PropertyBinding.descriptor :=
       Some {| Descriptor.value := v; Descriptor.writable := w;
               Descriptor.enumerable := e; Descriptor.configurable := c |} |}.

Definition deletedProperty : PropertyBinding.t :=
  {| PropertyBinding.descriptor := None |}.

(** The shape the runtime gives to [arguments] and [caller]; reference 12 is
    the undefined value. *)
Definition poisonPill : Descriptor.t :=
  {| Descriptor.value := Some 12; Descriptor.writable := true;
     Descriptor.enumerable := false; Descriptor.configurable := true |}.

(** A [length] turned into an accessor. *)
Definition lengthAccessor : Descriptor.t :=
  {| Descriptor.value := None; Descriptor.writable := false;
     Descriptor.enumerable := false; Descriptor.configurable := true |}.

(** A [name] whose value is the string at reference [v]. *)
Definition nameIs (v : Ref) : Descriptor.t :=
  {| Descriptor.value := Some v; Descriptor.writable := false;
     Descriptor.enumerable := false; Descriptor.configurable := true |}.

(** 0: the base object prototype.  1: [function foo() {}], not strict, with
    its default properties.  2: [foo.prototype] as the runtime creates it.
    3: a strict function recorded as [foo] whose [name] was set to ["bar"],
    whose [length] was made an accessor and on which [arguments] was defined
    with the poison-pill shape.  4: an anonymous function (its recorded name
    is empty) whose [name] was set to ["bar"].  5: an intrinsic abstract value
    with an identifier.  6: like 2, with a further property [foo] that was
    deleted.  7: an object whose only binding is a deleted [constructor].
    8: a native function with a [caller] property.  9: an object with an
    accessor property [x].  10, 11, 13: the number 0 and the strings ["foo"]
    and ["bar"].  Every other reference, 12 among them, is undefined. *)
Definition sampleHeap : Heap := fun r =>
  match r with
  | 0 => objectValue true [] 0 None
  | 1 => functionValue Class.ECMAScriptSourceFunctionValue
           [("length", dataProperty (Some 10) false false true);
            ("name", dataProperty (Some 11) false false true);
            ("arguments", dataProperty (Some 12) true false true);
            ("caller", dataProperty (Some 12) true false true);
            ("prototype", dataProperty (Some 2) true false false)]
           (Some "foo") false "normal"
  | 2 => objectValue false
           [("constructor", dataProperty (Some 1) true false true)] 0 (Some 1)
  | 3 => functionValue Class.ECMAScriptSourceFunctionValue
           [("length", {| PropertyBinding.descriptor := Some lengthAccessor |});
            ("name", dataProperty (Some 13) false false true);
            ("arguments", {| PropertyBinding.descriptor := Some poisonPill |})]
           (Some "foo") true "normal"
  | 4 => functionValue Class.ECMAScriptSourceFunctionValue
           [("name", dataProperty (Some 13) false false true)]
           (Some "") false "normal"
  | 5 => abstractValue true true
  | 6 => objectValue false
           [("constructor", dataProperty (Some 1) true false true);
            ("foo", deletedProperty)] 0 (Some 1)
  | 7 => objectValue false [("constructor", deletedProperty)] 0 None
  | 8 => functionValue Class.NativeFunctionValue
           [("caller", dataProperty (Some 12) true false true)]
           (Some "parseInt") false ""
  | 9 => objectValue false [("x", dataProperty None false true true)] 0 None
  | 10 => primitiveValue Class.NumberValue (JSnumber (S754_zero false))
  | 11 => primitiveValue Class.StringValue (JSstring "foo")
  | 13 => primitiveValue Class.StringValue (JSstring "bar")
  | _ => primitiveValue Class.UndefinedValue JSundefined
  end.

(** A realm that is not in the legacy compatibility mode. *)
Definition sampleRealm : Realm.t :=
  {| Realm.ObjectPrototype := 0;
     Realm.MOBILE_JSC_VERSION := "jsc-600-1-4-17";
     Realm.isCompatibleWith := String.eqb "browser" |}.

Definition sampleWorld : World := newInspector sampleHeap sampleRealm [].

(** Array-kind detection by class, for the sample heap. *)
Definition IsArray_by_class (r : Realm.t) (h : Heap) (val : Ref) : bool :=
  instanceof h val Class.ArrayValue.

(** A pass over the sample heap: two queries about function 1, one about
    the prototype 6, a leaf test, and the query again. *)
Definition samplePass : list Call :=
  [Call_canIgnoreProperty 1 "name"; Call_canIgnoreProperty 1 "length";
   Call_canIgnoreProperty 6 "foo"; Call_isLeaf 5;
   Call_canIgnoreProperty 1 "name"].

(** * Vocabulary of the further properties *)

(** The world reached by a pass: the calls [calls], in order, on a fresh
    inspector over the heap [h]. *)
Definition pass_world (IsArray : Realm.t -> Heap -> Ref -> bool)
    (h : Heap) (r : Realm.t) (log : list (Ref * string)) (calls : list Call)
    : World :=
  snd (run IsArray calls (newInspector h r log)).

(** The object has an own property [key] that is present, with descriptor
    [desc]. *)
Definition live (h : Heap) (val : Ref) (key : string) (desc : Descriptor.t)
    : Prop :=
  exists binding,
    In (key, binding) (Value.properties (h val))
    /\ PropertyBinding.descriptor binding = Some desc.

(** The object is one on which the check of the [arguments]/[caller] rule
    fails: a function, not array-kind, not source-defined, that owns a
    present [arguments] or [caller] property. *)
Definition trips_check (IsArray : Realm.t -> Heap -> Ref -> bool)
    (h : Heap) (r : Realm.t) (val : Ref) : Prop :=
  IsArray r h val = false
  /\ instanceof h val Class.FunctionValue = true
  /\ instanceof h val Class.ECMAScriptSourceFunctionValue = false
  /\ exists key desc,
       live h val key desc /\ (key = "arguments" \/ key = "caller").

(** The number of messages the log holds about the value [v]. *)
Definition messages_about (v : Ref) (log : list (Ref * string)) : nat :=
  length (List.filter (fun m : Ref * string => Nat.eqb (fst m) v) log).

(** A message of the log that reports what the [length] rule reports: the
    fixed text, about a function, not array-kind, that owns a present
    [length] property without value slot. *)
Definition accessor_length_report (IsArray : Realm.t -> Heap -> Ref -> bool)
    (h : Heap) (r : Realm.t) (m : Ref * string) : Prop :=
  snd m = length_accessor_message
  /\ IsArray r h (fst m) = false
  /\ instanceof h (fst m) Class.FunctionValue = true
  /\ exists desc, live h (fst m) "length" desc /\ Descriptor.value desc = None.

(** The seven property names that have a rule. *)
Definition ruled_names : list string :=
  ["length"; "name"; "arguments"; "caller"; "prototype"; "lastIndex";
   "constructor"].

(** ** A second sample heap *)

(** The sample heap, with four more values.  20: an array with its [length]
    as the runtime creates it and one element.  21: a regular expression
    whose [lastIndex] holds the number at 22.  22: the number -0.  23: an
    array whose [length] was made configurable. *)
Definition sampleHeap2 : Heap := fun r =>
  match r with
  | 20 => {| Value.class := Class.ArrayValue; Value.isIntrinsic := false;
             Value.hasIdentifier := false; Value.value := JSundefined;
             Value.properties :=
               [("0", dataProperty (Some 10) true true true);
                ("length", dataProperty (Some 10) true false false)];
             Value.symbols := []; Value._Prototype := 0;
             Value.getExtensible := true; Value.originalConstructor := None;
             Value.getKind := "Object"; Value.__originalName := None;
             Value.hasDefaultLength := false; Value._Strict := false;
             Value._FunctionKind := "" |}
  | 21 => {| Value.class := Class.ObjectValue; Value.isIntrinsic := false;
             Value.hasIdentifier := false; Value.value := JSundefined;
             Value.properties :=
               [("lastIndex", dataProperty (Some 22) true false false)];
             Value.symbols := []; Value._Prototype := 0;
             Value.getExtensible := true; Value.originalConstructor := None;
             Value.getKind := "RegExp"; Value.__originalName := None;
             Value.hasDefaultLength := false; Value._Strict := false;
             Value._FunctionKind := "" |}
  | 22 => primitiveValue Class.NumberValue (JSnumber (S754_zero true))
  | 23 => {| Value.class := Class.ArrayValue; Value.isIntrinsic := false;
             Value.hasIdentifier := false; Value.value := JSundefined;
             Value.properties :=
               [("length", dataProperty (Some 10) true false true)];
             Value.symbols := []; Value._Prototype := 0;
             Value.getExtensible := true; Value.originalConstructor := None;
             Value.getKind := "Object"; Value.__originalName := None;
             Value.hasDefaultLength := false; Value._Strict := false;
             Value._FunctionKind := "" |}
  | _ => sampleHeap r
  end.

(** * Proof tools *)

(** Case analysis on every test of the goal. *)
Ltac case_tests :=
  repeat match goal with
         | |- context [if ?c then _ else _] => destruct c eqn:?
         | |- context [match ?c with Some _ => _ | None => _ end] =>
             destruct c eqn:?
         end.

Ltac unfold_monad :=
  unfold bind, ret, getWorld, invariant, logError, ignoredProperties_set,
    noteScan in *.

(** * Basic facts *)

Lemma sameRef_true (a b : option Ref) : sameRef a b = true <-> a = b.
Proof.
  destruct a as [x|], b as [y|]; simpl; split; intros H;
    try discriminate; try reflexivity.
  - apply Nat.eqb_eq in H. now subst.
  - injection H as ->. apply Nat.eqb_refl.
Qed.

Lemma Map_get_NoDup {A} (m : list (string * A)) (k : string) (a : A) :
  NoDup (Map_keys m) -> In (k, a) m -> Map_get m k = Some a.
Proof.
  unfold Map_keys. induction m as [|[k' a'] m IH]; simpl; [intros _ []|].
  intros Hnd [Heq|Hin].
  - injection Heq as -> ->. now rewrite String.eqb_refl.
  - apply NoDup_cons_1_1 in Hnd as Hfresh. apply NoDup_cons_1_2 in Hnd.
    destruct (String.eqb k' k) eqn:E; [|now apply IH].
    apply String.eqb_eq in E. subst k'. exfalso. apply Hfresh.
    apply list_elem_of_In. change k with (fst (k, a)). now apply in_map.
Qed.

Lemma Set_has_app (s t : list string) (k : string) :
  Set_has (s ++ t) k = Set_has s k || Set_has t k.
Proof. unfold Set_has. apply existsb_app. Qed.

Lemma Set_has_add (s : list string) (k k' : string) :
  Set_has (Set_add s k) k' = Set_has s k' || String.eqb k' k.
Proof.
  unfold Set_add. destruct (Set_has s k) eqn:E.
  - destruct (String.eqb k' k) eqn:E'; [|now rewrite orb_false_r].
    apply String.eqb_eq in E'. subst. now rewrite E.
  - rewrite Set_has_app. simpl. now rewrite orb_false_r.
Qed.

Lemma same_but_log_refl (w : World) : same_but_log w w.
Proof. repeat split. exists []. now rewrite app_nil_r. Qed.

Lemma same_but_log_trans (w1 w2 w3 : World) :
  same_but_log w1 w2 -> same_but_log w2 w3 -> same_but_log w1 w3.
Proof.
  unfold same_but_log. intros (?&?&?&?&m1&Hm1) (?&?&?&?&m2&Hm2).
  repeat split; try congruence.
  exists (m1 ++ m2). rewrite Hm2, Hm1. now rewrite app_assoc.
Qed.

Lemma only_memoizes_refl (w : World) : only_memoizes w w.
Proof. repeat split; [auto|]. exists []. now rewrite app_nil_r. Qed.

Lemma only_memoizes_trans (w1 w2 w3 : World) :
  only_memoizes w1 w2 -> only_memoizes w2 w3 -> only_memoizes w1 w3.
Proof.
  unfold only_memoizes. intros (?&?&Hc1&m1&Hm1) (?&?&Hc2&m2&Hm2).
  repeat split; try congruence; [auto|].
  exists (m1 ++ m2). rewrite Hm2, Hm1. now rewrite app_assoc.
Qed.

Lemma same_but_log_only_memoizes (w w' : World) :
  same_but_log w w' -> only_memoizes w w'.
Proof.
  intros (Hh & Hr & Hm & _ & Hlog). repeat split; try assumption.
  intros val set. now rewrite Hm.
Qed.

(** * Leaf classification *)

(** C4. [isLeaf] applies its rules in priority order: a symbol is never a
    leaf; otherwise an abstract value with an identifier is a leaf, and this
    is decided before the intrinsic flag is looked at, so it holds of an
    intrinsic value too; otherwise an intrinsic value is not a leaf; otherwise
    the value is a leaf exactly when it is a primitive. *)
Theorem isLeaf_priority_order (h : Heap) (val : Ref) :
  (instanceof h val Class.SymbolValue = true -> isLeaf h val = false)
  /\ (instanceof h val Class.SymbolValue = false ->
      instanceof h val Class.AbstractValue = true ->
      Value.hasIdentifier (h val) = true ->
      isLeaf h val = true)
  /\ (instanceof h val Class.SymbolValue = false ->
      instanceof h val Class.AbstractValue
        && Value.hasIdentifier (h val) = false ->
      Value.isIntrinsic (h val) = true ->
      isLeaf h val = false)
  /\ (instanceof h val Class.SymbolValue = false ->
      instanceof h val Class.AbstractValue
        && Value.hasIdentifier (h val) = false ->
      Value.isIntrinsic (h val) = false ->
      isLeaf h val = instanceof h val Class.PrimitiveValue).
Proof.
  unfold isLeaf. split; [|split; [|split]].
  - intros ->. reflexivity.
  - intros -> -> ->. reflexivity.
  - intros -> -> ->. reflexivity.
  - intros -> -> ->. reflexivity.
Qed.

(** Reference 5 is abstract, has an identifier and is intrinsic: a leaf. *)
Lemma isLeaf_priority_order_witness :
  Value.isIntrinsic (sampleHeap 5) = true /\ isLeaf sampleHeap 5 = true.
Proof.
  split; [reflexivity|].
  apply (proj1 (proj2 (isLeaf_priority_order sampleHeap 5))); reflexivity.
Defined.

(** * The property-value accessor *)

(** C9. [getPropertyValue] returns the content of the descriptor's value
    slot: nothing when the binding is missing, nothing when the descriptor is
    absent, and otherwise whatever the slot holds, which is again nothing for
    an accessor descriptor; the answer for an accessor property is the answer
    for a property that does not exist. *)
Theorem getPropertyValue_is_value_slot (h : Heap) (val : Ref) (name : string) :
  (Map_get (Value.properties (h val)) name = None ->
   getPropertyValue h val name = None)
  /\ (forall binding,
        Map_get (Value.properties (h val)) name = Some binding ->
        PropertyBinding.descriptor binding = None ->
        getPropertyValue h val name = None)
  /\ (forall binding desc,
        Map_get (Value.properties (h val)) name = Some binding ->
        PropertyBinding.descriptor binding = Some desc ->
        getPropertyValue h val name = Descriptor.value desc)
  /\ (forall binding desc,
        Map_get (Value.properties (h val)) name = Some binding ->
        PropertyBinding.descriptor binding = Some desc ->
        Descriptor.value desc = None ->
        getPropertyValue h val name = None
        /\ forall h' val',
             Map_get (Value.properties (h' val')) name = None ->
             getPropertyValue h val name = getPropertyValue h' val' name).
Proof.
  unfold getPropertyValue. split; [|split; [|split]].
  - intros ->. reflexivity.
  - intros binding -> ->. reflexivity.
  - intros binding desc -> ->. reflexivity.
  - intros binding desc Hget Hdesc Hvalue. rewrite Hget, Hdesc. split.
    + exact Hvalue.
    + intros h' val' Hnone. now rewrite Hnone.
Qed.

(** Object 9 has an accessor property [x], object 7 has no [x] at all: the
    accessor reads the same. *)
Lemma getPropertyValue_is_value_slot_witness :
  getPropertyValue sampleHeap 9 "x" = None
  /\ getPropertyValue sampleHeap 9 "x" = getPropertyValue sampleHeap 7 "x".
Proof.
  destruct (proj2 (proj2 (proj2 (getPropertyValue_is_value_slot sampleHeap 9 "x")))
              (dataProperty None false true true)
              {| Descriptor.value := None; Descriptor.writable := false;
                 Descriptor.enumerable := true; Descriptor.configurable := true |}
              eq_refl eq_refl eq_refl) as [Hnone Hsame].
  split; [exact Hnone|]. apply Hsame. reflexivity.
Defined.

(** * Default-prototype detection *)

(** The loop answers [true] exactly when every name passes its test and a
    [constructor] was found, before or during the loop. *)
Lemma isDefaultPrototype_loop_true (h : Heap) (prototype : Ref)
    (names : list string) (found : bool) :
  isDefaultPrototype_loop h prototype names found = true <->
  Forall (fun name => name = "constructor") names
  /\ (names = [] /\ found = true
      \/ names <> []
         /\ getPropertyValue h prototype "constructor"
            = Value.originalConstructor (h prototype)).
Proof.
  revert found. induction names as [|name rest IH]; intros found; simpl.
  - split.
    + intros ->. split; [constructor|now left].
    + intros [_ [[_ ->]|[Hne _]]]; [reflexivity|now elim Hne].
  - destruct (String.eqb name "constructor") eqn:Ename; simpl.
    + apply String.eqb_eq in Ename. subst name.
      destruct (sameRef (getPropertyValue h prototype "constructor")
                  (Value.originalConstructor (h prototype))) eqn:Esame.
      * apply sameRef_true in Esame. rewrite IH. split.
        -- intros [Hall _]. split; [now constructor|right]. now split.
        -- intros [Hall _]. inversion Hall; subst. split; [assumption|].
           destruct rest; [now left|right]. now split.
      * split; [discriminate|].
        intros [_ [[Hnil _]|[_ Hv]]]; [discriminate|].
        apply sameRef_true in Hv. congruence.
    + apply String.eqb_neq in Ename. split; [discriminate|].
      intros [Hall _]. inversion Hall; subst. now elim Ename.
Qed.

(** The first name other than [constructor] decides the loop, whatever
    follows it. *)
Lemma isDefaultPrototype_loop_stops (h : Heap) (prototype : Ref)
    (before : list string) (name : string) (after : list string) (found : bool) :
  name <> "constructor" ->
  isDefaultPrototype_loop h prototype (before ++ name :: after) found = false.
Proof.
  intros Hname. revert found.
  induction before as [|n before IH]; intros found; simpl.
  - apply String.eqb_neq in Hname. now rewrite Hname.
  - destruct (_ && _); [apply IH|reflexivity].
Qed.

Lemma NoDup_all_constructor (names : list string) :
  NoDup names -> Forall (fun name => name = "constructor") names ->
  names <> [] -> names = ["constructor"].
Proof.
  intros Hnd Hall Hne. destruct names as [|a [|b rest]]; [now elim Hne| |].
  - inversion Hall; subst. reflexivity.
  - exfalso. inversion Hall as [|? ? Ha Hall']; subst.
    inversion Hall' as [|? ? Hb _]; subst.
    apply NoDup_cons_1_1 in Hnd. apply Hnd. now left.
Qed.

Lemma sample_keys_distinct_2 :
  NoDup (Map_keys (Value.properties (heap sampleWorld 2))).
Proof. apply NoDup_singleton. Defined.

Lemma sample_keys_distinct_6 :
  NoDup (Map_keys (Value.properties (sampleHeap 6))).
Proof.
  apply NoDup_cons. split; [|apply NoDup_singleton].
  intros Hin. apply list_elem_of_In in Hin. destruct Hin as [Heq|[]].
  discriminate Heq.
Defined.

(** C1, as amended.  For an object whose own property names are pairwise
    distinct, [isDefaultPrototype] answers [true] exactly when the object has
    no symbol-keyed properties, its prototype link is the realm's base object
    prototype, it is extensible, and its own bindings (whatever their
    [enumerable] flag, deleted ones included) are exactly one binding named
    [constructor] whose value, as [getPropertyValue] reads it, is the
    object's [originalConstructor].  The scan answers [false] at the first
    other name, whatever follows, and answers [false] when there is no
    [constructor] binding. *)
Theorem isDefaultPrototype_characterised (w : World) (prototype : Ref) :
  NoDup (Map_keys (Value.properties (heap w prototype))) ->
  (isDefaultPrototype w prototype = true <->
   Value.symbols (heap w prototype) = []
   /\ Value._Prototype (heap w prototype) = Realm.ObjectPrototype (realm w)
   /\ Value.getExtensible (heap w prototype) = true
   /\ Map_keys (Value.properties (heap w prototype)) = ["constructor"]
   /\ getPropertyValue (heap w) prototype "constructor"
      = Value.originalConstructor (heap w prototype))
  /\ (forall before name after,
        Map_keys (Value.properties (heap w prototype)) = before ++ name :: after ->
        name <> "constructor" ->
        isDefaultPrototype w prototype = false)
  /\ (~ In "constructor" (Map_keys (Value.properties (heap w prototype))) ->
      isDefaultPrototype w prototype = false).
Proof.
  intros Hnd. unfold isDefaultPrototype. cbv zeta.
  set (h := heap w) in *.
  set (names := Map_keys (Value.properties (h prototype))) in *.
  split; [split|split].
  - destruct (_ || _) eqn:Eguard; [discriminate|].
    rewrite !orb_false_iff, !negb_false_iff in Eguard.
    destruct Eguard as [[Hsym Hproto] Hext].
    intros Hloop. apply isDefaultPrototype_loop_true in Hloop.
    destruct Hloop as [Hall [[_ Hf]|[Hne Hv]]]; [discriminate|].
    apply Nat.eqb_eq in Hsym, Hproto.
    repeat split; try assumption.
    + now apply length_zero_iff_nil.
    + now apply NoDup_all_constructor.
  - intros (Hsym & Hproto & Hext & Hnames & Hv).
    rewrite Hsym, Hproto, Hext. simpl. rewrite Nat.eqb_refl. simpl.
    apply isDefaultPrototype_loop_true. rewrite Hnames. split.
    + now repeat constructor.
    + right. split; [discriminate|assumption].
  - intros before name after Hnames Hname.
    destruct (_ || _); [reflexivity|].
    rewrite Hnames. now apply isDefaultPrototype_loop_stops.
  - intros Hno. destruct (_ || _); [reflexivity|].
    destruct (isDefaultPrototype_loop h prototype names false) eqn:Eloop;
      [|reflexivity].
    apply isDefaultPrototype_loop_true in Eloop.
    destruct Eloop as [Hall [[_ Hf]|[Hne _]]]; [discriminate|].
    exfalso. destruct names as [|n rest]; [now elim Hne|].
    inversion Hall; subst. apply Hno. now left.
Qed.

(** The default prototype of [foo] is recognised. *)
Lemma isDefaultPrototype_characterised_witness :
  NoDup (Map_keys (Value.properties (heap sampleWorld 2)))
  /\ isDefaultPrototype sampleWorld 2 = true.
Proof.
  split; [exact sample_keys_distinct_2|].
  apply (proj1 (isDefaultPrototype_characterised sampleWorld 2
                  sample_keys_distinct_2)).
  repeat split; reflexivity.
Defined.

(** C1, counterexample.  The prototype the runtime creates for
    [function foo() {}] has one own property, [constructor], which is not
    enumerable: its own enumerable property set is empty, and it is a default
    prototype all the same. *)
Lemma isDefaultPrototype_counterexample :
  isDefaultPrototype sampleWorld 2 = true
  /\ ownEnumerableProperties (heap sampleWorld) 2 = []
  /\ ~ stated_default_prototype sampleWorld 2.
Proof.
  split; [reflexivity|]. split; [reflexivity|].
  intros (_ & _ & _ & desc & Hprops & _). discriminate Hprops.
Qed.

(** C10. An object with no symbol-keyed properties, the base object prototype
    as prototype link, extensible, with no recorded [originalConstructor],
    and whose only own binding is named [constructor] and is deleted or has no
    value slot, is taken for a default prototype: the absent property value
    equals the absent [originalConstructor]. *)
Theorem isDefaultPrototype_absent_constructor (w : World) (prototype : Ref)
    (binding : PropertyBinding.t) :
  Value.symbols (heap w prototype) = [] ->
  Value._Prototype (heap w prototype) = Realm.ObjectPrototype (realm w) ->
  Value.getExtensible (heap w prototype) = true ->
  Value.originalConstructor (heap w prototype) = None ->
  Value.properties (heap w prototype) = [("constructor", binding)] ->
  PropertyBinding.descriptor binding = None
  \/ (exists desc, PropertyBinding.descriptor binding = Some desc
                   /\ Descriptor.value desc = None) ->
  isDefaultPrototype w prototype = true.
Proof.
  intros Hsym Hproto Hext Hoc Hprops Hbinding.
  unfold isDefaultPrototype. cbv zeta.
  rewrite Hsym, Hproto, Hext, Hprops. simpl. rewrite Nat.eqb_refl. simpl.
  unfold getPropertyValue. rewrite Hprops, Hoc. simpl.
  destruct Hbinding as [-> | (desc & -> & ->)]; reflexivity.
Qed.

(** Object 7: a deleted [constructor] and no recorded constructor. *)
Lemma isDefaultPrototype_absent_constructor_witness :
  isDefaultPrototype sampleWorld 7 = true.
Proof.
  apply (isDefaultPrototype_absent_constructor sampleWorld 7 deletedProperty);
    try reflexivity.
  left. reflexivity.
Defined.

(** * What a property decision reads and writes *)

Section Decision_facts.

Variable IsArray : Realm.t -> Heap -> Ref -> bool.

(** A decision leaves the world as it is, but for the log. *)
Lemma _canIgnoreProperty_frame (val : Ref) (key : string)
    (desc : Descriptor.t) (w : World) :
  same_but_log w (snd (_canIgnoreProperty IsArray val key desc w)).
Proof.
  unfold _canIgnoreProperty. unfold_monad.
  case_tests; simpl; repeat split;
    first [now (exists []; rewrite app_nil_r) | now eexists].
Qed.

(** The verdict is a function of the heap and the realm alone. *)
Lemma _canIgnoreProperty_verdict (val : Ref) (key : string)
    (desc : Descriptor.t) (w1 w2 : World) :
  heap w1 = heap w2 -> realm w1 = realm w2 ->
  fst (_canIgnoreProperty IsArray val key desc w1)
  = fst (_canIgnoreProperty IsArray val key desc w2).
Proof.
  intros Hh Hr. unfold _canIgnoreProperty, name_retained. unfold_monad.
  rewrite Hh, Hr. case_tests; reflexivity.
Qed.

End Decision_facts.

(** * The rules for function values *)

Section Function_rules.

Variable IsArray : Realm.t -> Heap -> Ref -> bool.

(** C6. For a function value asked about [length]: the call always returns,
    its verdict is exactly the shape test (not writable, not enumerable,
    configurable, default length), and when the descriptor has no value slot
    exactly one error reaches the logger, for that function and with the
    fixed message; nothing else changes. *)
Theorem function_length_rule (w : World) (val : Ref) (desc : Descriptor.t) :
  IsArray (realm w) (heap w) val = false ->
  instanceof (heap w) val Class.FunctionValue = true ->
  fst (_canIgnoreProperty IsArray val "length" desc w)
  = Return (length_shape w val desc)
  /\ (Descriptor.value desc = None ->
      logger (snd (_canIgnoreProperty IsArray val "length" desc w))
      = logger w ++ [(val, length_accessor_message)])
  /\ (Descriptor.value desc <> None ->
      snd (_canIgnoreProperty IsArray val "length" desc w) = w)
  /\ same_but_log w (snd (_canIgnoreProperty IsArray val "length" desc w)).
Proof.
  intros Harr Hfun. unfold _canIgnoreProperty, length_shape. unfold_monad.
  rewrite Harr, Hfun. cbn [String.eqb Ascii.eqb Bool.eqb].
  destruct (Descriptor.value desc) as [v|]; cbn; repeat split;
    try reflexivity; try (intros; congruence);
    first [now (exists []; rewrite app_nil_r) | now eexists].
Qed.

(** C5, as amended.  For a function value asked about [name], the call
    returns without touching anything, and the verdict is "keep" exactly
    when the descriptor holds a value, the realm is not compatible with the
    legacy engine, and that value is abstract or the function has a
    recorded, non-empty original name that differs from the literal held by
    the value. *)
Theorem function_name_rule (w : World) (val : Ref) (desc : Descriptor.t) :
  IsArray (realm w) (heap w) val = false ->
  instanceof (heap w) val Class.FunctionValue = true ->
  exists omissible : bool,
    _canIgnoreProperty IsArray val "name" desc w = (Return omissible, w)
    /\ (omissible = false <->
        exists v, Descriptor.value desc = Some v
          /\ Realm.isCompatibleWith (realm w)
               (Realm.MOBILE_JSC_VERSION (realm w)) = false
          /\ (instanceof (heap w) v Class.AbstractValue = true
              \/ exists originalName,
                   Value.__originalName (heap w val) = Some originalName
                   /\ originalName <> ""
                   /\ strictEq (Value.value (heap w v))
                        (JSstring originalName) = false)).
Proof.
  intros Harr Hfun. unfold _canIgnoreProperty. unfold_monad.
  rewrite Harr, Hfun. cbn [String.eqb Ascii.eqb Bool.eqb].
  exists (negb (name_retained w val desc)).
  split; [destruct (name_retained w val desc); reflexivity|].
  rewrite negb_false_iff. unfold name_retained.
  destruct (Descriptor.value desc) as [v|].
  2:{ split; [discriminate|]. intros (v & Hv & _). discriminate. }
  rewrite !andb_true_iff, orb_true_iff, negb_true_iff. split.
  - intros [Hc Hd]. exists v. repeat split; [exact Hc|].
    destruct Hd as [Ha|Hn]; [now left|right].
    destruct (Value.__originalName (heap w val)) as [n|]; [|discriminate].
    rewrite !andb_true_iff, !negb_true_iff in Hn.
    destruct Hn as [[Hne _] Hs]. exists n. repeat split; [|exact Hs].
    intros ->. discriminate.
  - intros (v' & [= <-] & Hc & Hd). split; [exact Hc|].
    destruct Hd as [Ha|(n & Hn & Hne & Hs)]; [now left|right].
    rewrite Hn, !andb_true_iff, !negb_true_iff.
    apply String.eqb_neq in Hne. now repeat split.
Qed.

(** C2, as amended.  For a function value asked about [arguments] or
    [caller]: the internal check only asks that the function be a
    source-defined one and aborts the call otherwise; a source-defined
    function passes it whatever its strictness or kind, and is then judged
    omissible exactly when it is not strict, of kind "normal", and the
    descriptor has the poison-pill shape.  So a strict or non-"normal"
    source function is answered [false] whatever the descriptor, for a
    non-strict "normal" one the verdict is the shape test, and no function
    that is strict or not "normal" is ever judged omissible. *)
Theorem function_poison_pill_rule (w : World) (val : Ref) (key : string)
    (desc : Descriptor.t) :
  IsArray (realm w) (heap w) val = false ->
  instanceof (heap w) val Class.FunctionValue = true ->
  key = "arguments" \/ key = "caller" ->
  (instanceof (heap w) val Class.ECMAScriptSourceFunctionValue = false ->
   _canIgnoreProperty IsArray val key desc w = (InvariantViolation, w))
  /\ (instanceof (heap w) val Class.ECMAScriptSourceFunctionValue = true ->
      _canIgnoreProperty IsArray val key desc w
      = (Return (negb (Value._Strict (heap w val))
                 && String.eqb (Value._FunctionKind (heap w val)) "normal"
                 && poison_pill_shape w desc), w))
  /\ (instanceof (heap w) val Class.ECMAScriptSourceFunctionValue = true ->
      Value._Strict (heap w val) = true
      \/ Value._FunctionKind (heap w val) <> "normal" ->
      _canIgnoreProperty IsArray val key desc w = (Return false, w))
  /\ (instanceof (heap w) val Class.ECMAScriptSourceFunctionValue = true ->
      Value._Strict (heap w val) = false ->
      Value._FunctionKind (heap w val) = "normal" ->
      _canIgnoreProperty IsArray val key desc w
      = (Return (poison_pill_shape w desc), w))
  /\ (Value._Strict (heap w val) = true
      \/ Value._FunctionKind (heap w val) <> "normal" ->
      fst (_canIgnoreProperty IsArray val key desc w) <> Return true).
Proof.
  intros Harr Hfun Hkey.
  assert (Hsrc : instanceof (heap w) val Class.ECMAScriptSourceFunctionValue = true ->
      _canIgnoreProperty IsArray val key desc w
      = (Return (negb (Value._Strict (heap w val))
                 && String.eqb (Value._FunctionKind (heap w val)) "normal"
                 && poison_pill_shape w desc), w)).
  { intros Hs. unfold _canIgnoreProperty, poison_pill_shape, constructor_rule.
    unfold_monad. rewrite Harr, Hfun, Hs.
    destruct Hkey as [-> | ->]; cbn [String.eqb Ascii.eqb Bool.eqb orb andb];
      destruct (Value._Strict (heap w val)),
        (String.eqb (Value._FunctionKind (heap w val)) "normal"),
        (Descriptor.writable desc), (Descriptor.enumerable desc),
        (Descriptor.configurable desc),
        (instanceof_opt (heap w) (Descriptor.value desc) Class.UndefinedValue);
      reflexivity. }
  assert (Hnot : instanceof (heap w) val Class.ECMAScriptSourceFunctionValue = false ->
      _canIgnoreProperty IsArray val key desc w = (InvariantViolation, w)).
  { intros Hs. unfold _canIgnoreProperty. unfold_monad.
    rewrite Harr, Hfun, Hs.
    destruct Hkey as [-> | ->]; reflexivity. }
  assert (Hbad : instanceof (heap w) val Class.ECMAScriptSourceFunctionValue = true ->
      Value._Strict (heap w val) = true
      \/ Value._FunctionKind (heap w val) <> "normal" ->
      _canIgnoreProperty IsArray val key desc w = (Return false, w)).
  { intros Hs Hbad. rewrite (Hsrc Hs).
    destruct Hbad as [-> | Hk]; [reflexivity|].
    apply String.eqb_neq in Hk. rewrite Hk. now rewrite andb_false_r. }
  split; [exact Hnot|]. split; [exact Hsrc|]. split; [exact Hbad|]. split.
  - intros Hs Hstrict Hkind. rewrite (Hsrc Hs), Hstrict, Hkind. reflexivity.
  - intros Hstrict.
    destruct (instanceof (heap w) val Class.ECMAScriptSourceFunctionValue) eqn:Hs.
    + rewrite (Hbad eq_refl Hstrict). discriminate.
    + rewrite (Hnot eq_refl). discriminate.
Qed.

End Function_rules.

(** Function 3 has an accessor [length]: one error is logger and the shape
    test decides. *)
Lemma function_length_rule_witness :
  fst (_canIgnoreProperty IsArray_by_class 3 "length" lengthAccessor sampleWorld)
  = Return true
  /\ logger (snd (_canIgnoreProperty IsArray_by_class 3 "length" lengthAccessor
                    sampleWorld))
     = [(3, length_accessor_message)].
Proof.
  destruct (function_length_rule IsArray_by_class sampleWorld 3 lengthAccessor
              eq_refl eq_refl) as (Hverdict & Hlog & _).
  split; [exact Hverdict|exact (Hlog eq_refl)].
Defined.

(** Function 3, recorded as [foo], keeps its [name] set to ["bar"]. *)
Lemma function_name_rule_witness :
  _canIgnoreProperty IsArray_by_class 3 "name" (nameIs 13) sampleWorld
  = (Return false, sampleWorld).
Proof.
  destruct (function_name_rule IsArray_by_class sampleWorld 3 (nameIs 13)
              eq_refl eq_refl) as (omissible & Hcall & Hkeep).
  rewrite Hcall. f_equal. f_equal. apply Hkeep.
  exists 13. split; [reflexivity|]. split; [reflexivity|].
  right. exists "foo". split; [reflexivity|]. split; [discriminate|reflexivity].
Defined.

(** C5, counterexample.  Function 4 has the empty string as recorded original
    name and a [name] property holding ["bar"]; the realm is not in the
    legacy mode.  The recorded name differs from the literal, and the
    property is judged omissible. *)
Lemma function_name_counterexample :
  Value.__originalName (heap sampleWorld 4) = Some ""
  /\ stated_name_kept sampleWorld 4 (nameIs 13)
  /\ _canIgnoreProperty IsArray_by_class 4 "name" (nameIs 13) sampleWorld
     = (Return true, sampleWorld).
Proof.
  split; [reflexivity|]. split; [|reflexivity].
  exists 13. split; [reflexivity|]. split; [reflexivity|].
  right. exists "". split; reflexivity.
Qed.

(** A strict function is rejected, a non-strict "normal" one is judged by the
    shape, and a native function trips the check. *)
Lemma function_poison_pill_rule_witness :
  _canIgnoreProperty IsArray_by_class 3 "arguments" poisonPill sampleWorld
  = (Return false, sampleWorld)
  /\ _canIgnoreProperty IsArray_by_class 1 "caller" poisonPill sampleWorld
     = (Return true, sampleWorld)
  /\ _canIgnoreProperty IsArray_by_class 8 "caller" poisonPill sampleWorld
     = (InvariantViolation, sampleWorld).
Proof.
  split; [|split].
  - apply (function_poison_pill_rule IsArray_by_class sampleWorld 3
             "arguments" poisonPill eq_refl eq_refl (or_introl eq_refl));
      [reflexivity|left; reflexivity].
  - apply (function_poison_pill_rule IsArray_by_class sampleWorld 1
             "caller" poisonPill eq_refl eq_refl (or_intror eq_refl));
      reflexivity.
  - apply (function_poison_pill_rule IsArray_by_class sampleWorld 8
             "caller" poisonPill eq_refl eq_refl (or_intror eq_refl)).
    reflexivity.
Defined.

(** C2, counterexample.  A strict source function asked about [arguments],
    with a descriptor of the poison-pill shape, passes the internal
    consistency check: the call returns [false], it does not abort. *)
Lemma function_poison_pill_counterexample :
  Value._Strict (heap sampleWorld 3) = true
  /\ _canIgnoreProperty IsArray_by_class 3 "arguments" poisonPill sampleWorld
     = (Return false, sampleWorld)
  /\ ~ stated_poison_pill_guard IsArray_by_class sampleWorld 3 "arguments"
         poisonPill.
Proof.
  split; [reflexivity|]. split; [reflexivity|].
  intros Hguard. specialize (Hguard (or_introl eq_refl)). discriminate Hguard.
Qed.

(** * The full scan of an object *)

Section Scan_facts.

Variable IsArray : Realm.t -> Heap -> Ref -> bool.

Lemma _getIgnoredProperties_loop_frame (val : Ref)
    (entries : list (string * PropertyBinding.t)) :
  forall (set : list string) (w : World),
    same_but_log w (snd (_getIgnoredProperties_loop IsArray val entries set w)).
Proof.
  induction entries as [|[key binding] rest IH]; intros set w; simpl.
  - apply same_but_log_refl.
  - destruct (PropertyBinding.descriptor binding) as [desc|]; [|apply IH].
    unfold bind.
    pose proof (_canIgnoreProperty_frame IsArray val key desc w) as Hstep.
    destruct (_canIgnoreProperty IsArray val key desc w) as [[b|] w1];
      simpl in *; [|exact Hstep].
    eapply same_but_log_trans; [exact Hstep|apply IH].
Qed.

Lemma _getIgnoredProperties_loop_verdict (val : Ref)
    (entries : list (string * PropertyBinding.t)) :
  forall (set : list string) (w1 w2 : World),
    heap w1 = heap w2 -> realm w1 = realm w2 ->
    fst (_getIgnoredProperties_loop IsArray val entries set w1)
    = fst (_getIgnoredProperties_loop IsArray val entries set w2).
Proof.
  induction entries as [|[key binding] rest IH]; intros set w1 w2 Hh Hr; simpl.
  - reflexivity.
  - destruct (PropertyBinding.descriptor binding) as [desc|]; [|now apply IH].
    unfold bind.
    pose proof (_canIgnoreProperty_verdict IsArray val key desc w1 w2 Hh Hr) as Hv.
    pose proof (_canIgnoreProperty_frame IsArray val key desc w1) as (Hh1 & Hr1 & _).
    pose proof (_canIgnoreProperty_frame IsArray val key desc w2) as (Hh2 & Hr2 & _).
    destruct (_canIgnoreProperty IsArray val key desc w1) as [[b1|] u1],
             (_canIgnoreProperty IsArray val key desc w2) as [[b2|] u2];
      simpl in *; try discriminate; try reflexivity.
    injection Hv as ->. apply IH; congruence.
Qed.

(** Only names already in the set, or names of bindings that have a
    descriptor, are in the set the loop returns. *)
Lemma _getIgnoredProperties_loop_members (val : Ref)
    (entries : list (string * PropertyBinding.t)) :
  forall (set : list string) (w : World) (set' : list string) (w' : World)
         (k : string),
    _getIgnoredProperties_loop IsArray val entries set w = (Return set', w') ->
    Set_has set' k = true ->
    Set_has set k = true
    \/ exists binding desc,
         In (k, binding) entries
         /\ PropertyBinding.descriptor binding = Some desc.
Proof.
  induction entries as [|[key binding] rest IH];
    intros set w set' w' k Hrun Hk; simpl in Hrun.
  - injection Hrun as <- _. now left.
  - destruct (PropertyBinding.descriptor binding) as [desc|] eqn:Edesc.
    + unfold bind in Hrun.
      destruct (_canIgnoreProperty IsArray val key desc w) as [[b|] w1];
        [|discriminate].
      destruct (IH _ _ _ _ _ Hrun Hk) as [Hin|(b' & d' & Hin & Hd)].
      * destruct b; [|now left].
        rewrite Set_has_add in Hin. apply orb_true_iff in Hin.
        destruct Hin as [Hin|Heq]; [now left|right].
        apply String.eqb_eq in Heq. subst k.
        exists binding, desc. split; [now left|assumption].
      * right. exists b', d'. split; [now right|assumption].
    + destruct (IH _ _ _ _ _ Hrun Hk) as [Hin|(b' & d' & Hin & Hd)];
        [now left|right].
      exists b', d'. split; [now right|assumption].
Qed.

Lemma _getIgnoredProperties_frame (val : Ref) (w : World) :
  let w' := snd (_getIgnoredProperties IsArray val w) in
  heap w' = heap w /\ realm w' = realm w
  /\ ignoredProperties w' = ignoredProperties w
  /\ scanned w' = scanned w ++ [val]
  /\ exists messages, logger w' = logger w ++ messages.
Proof.
  unfold _getIgnoredProperties. unfold_monad. simpl.
  match goal with
  | |- context [_getIgnoredProperties_loop IsArray val ?es ?s ?u] =>
      pose proof (_getIgnoredProperties_loop_frame val es s u)
        as (H1 & H2 & H3 & H4 & H5);
      destruct (_getIgnoredProperties_loop IsArray val es s u) as [[set|] w1]
  end; simpl in *; repeat split; assumption.
Qed.

Lemma _getIgnoredProperties_verdict (val : Ref) (w1 w2 : World) :
  heap w1 = heap w2 -> realm w1 = realm w2 ->
  fst (_getIgnoredProperties IsArray val w1)
  = fst (_getIgnoredProperties IsArray val w2).
Proof.
  intros Hh Hr. unfold _getIgnoredProperties. unfold_monad. simpl.
  rewrite Hh. apply _getIgnoredProperties_loop_verdict; simpl; congruence.
Qed.

Lemma _getIgnoredProperties_members (val : Ref) (w : World)
    (set : list string) (w' : World) (k : string) :
  _getIgnoredProperties IsArray val w = (Return set, w') ->
  Set_has set k = true ->
  exists binding desc,
    In (k, binding) (Value.properties (heap w val))
    /\ PropertyBinding.descriptor binding = Some desc.
Proof.
  unfold _getIgnoredProperties. unfold_monad. simpl. intros Hrun Hk.
  match type of Hrun with
  | context [_getIgnoredProperties_loop IsArray val ?es ?s ?u] =>
      destruct (_getIgnoredProperties_loop IsArray val es s u) as [[s1|] x1] eqn:E
  end; [|discriminate].
  injection Hrun as <- <-.
  destruct (_getIgnoredProperties_loop_members _ _ _ _ _ _ _ E Hk)
    as [Hin|Hex]; [discriminate|exact Hex].
Qed.

(** The two paths of [canIgnoreProperty]. *)
Lemma canIgnoreProperty_cached (val : Ref) (key : string) (w : World)
    (set : list string) :
  ignoredProperties w !! val = Some set ->
  canIgnoreProperty IsArray val key w = (Return (Set_has set key), w).
Proof.
  intros Hhit. unfold canIgnoreProperty. unfold_monad. now rewrite Hhit.
Qed.

Lemma canIgnoreProperty_first (val : Ref) (key : string) (w : World) :
  ignoredProperties w !! val = None ->
  canIgnoreProperty IsArray val key w
  = match _getIgnoredProperties IsArray val w with
    | (Return set, w1) =>
        (Return (Set_has set key),
         {| heap := heap w1; realm := realm w1; logger := logger w1;
            ignoredProperties := <[val := set]> (ignoredProperties w1);
            scanned := scanned w1 |})
    | (InvariantViolation, w1) => (InvariantViolation, w1)
    end.
Proof.
  intros Hmiss. unfold canIgnoreProperty. unfold_monad. rewrite Hmiss.
  destruct (_getIgnoredProperties IsArray val w) as [[set|] w1]; reflexivity.
Qed.

End Scan_facts.

(** * Invariants of a pass *)

Section Pass_facts.

Variable IsArray : Realm.t -> Heap -> Ref -> bool.

(** Established by the constructor. *)
Lemma pass_invariant_new (h : Heap) (r : Realm.t) (log : list (Ref * string)) :
  pass_invariant IsArray (newInspector h r log).
Proof.
  repeat split.
  - intros val set Hhit. simpl in Hhit. now rewrite lookup_empty in Hhit.
  - constructor.
  - intros val [].
Qed.

Lemma memo_sound_transfer (w w' : World) :
  heap w' = heap w -> realm w' = realm w ->
  (forall val set,
     ignoredProperties w' !! val = Some set ->
     ignoredProperties w !! val = Some set
     \/ fst (_getIgnoredProperties IsArray val w) = Return set) ->
  memo_sound IsArray w -> memo_sound IsArray w'.
Proof.
  intros Hh Hr Hsub Hsound val set Hhit.
  rewrite (_getIgnoredProperties_verdict IsArray val w' w Hh Hr).
  destruct (Hsub _ _ Hhit) as [Hold|Hnew]; [now apply Hsound|exact Hnew].
Qed.

(** Used: in a world whose table is sound, the verdict of a query is the
    verdict of a scan of the object. *)
Lemma canIgnoreProperty_answer (val : Ref) (key : string) (w : World) :
  memo_sound IsArray w ->
  fst (canIgnoreProperty IsArray val key w)
  = match fst (_getIgnoredProperties IsArray val w) with
    | Return set => Return (Set_has set key)
    | InvariantViolation => InvariantViolation
    end.
Proof.
  intros Hsound. destruct (ignoredProperties w !! val) as [set|] eqn:Ememo.
  - rewrite (canIgnoreProperty_cached IsArray _ _ _ _ Ememo).
    now rewrite (Hsound _ _ Ememo).
  - rewrite (canIgnoreProperty_first IsArray _ _ _ Ememo).
    destruct (_getIgnoredProperties IsArray val w) as [[set|] w1]; reflexivity.
Qed.

Lemma scan_is_fresh (val : Ref) (w : World) :
  NoDup (scanned w) -> scans_memoized w ->
  ignoredProperties w !! val = None ->
  NoDup (scanned w ++ [val]).
Proof.
  intros Hnd Hmemo Hmiss. apply NoDup_app. repeat split.
  - exact Hnd.
  - intros v Hv Hv'. apply list_elem_of_In in Hv.
    apply list_elem_of_In in Hv'. destruct Hv' as [<-|[]].
    apply Hmemo in Hv. rewrite Hmiss in Hv. now destruct Hv.
  - apply NoDup_singleton.
Qed.

(** Preserved by a query: the table stays sound and no scan is repeated; if
    the query returns, every scanned object is in the table. *)
Lemma canIgnoreProperty_step (val : Ref) (key : string) (w : World) :
  let w' := snd (canIgnoreProperty IsArray val key w) in
  only_memoizes w w'
  /\ (pass_invariant IsArray w ->
      memo_sound IsArray w' /\ NoDup (scanned w')
      /\ (forall b, fst (canIgnoreProperty IsArray val key w) = Return b ->
          scans_memoized w')).
Proof.
  destruct (ignoredProperties w !! val) as [set|] eqn:Ememo.
  - rewrite (canIgnoreProperty_cached IsArray _ _ _ _ Ememo). simpl.
    split; [apply only_memoizes_refl|].
    intros (Hsound & Hnd & Hmemo). now repeat split.
  - rewrite (canIgnoreProperty_first IsArray _ _ _ Ememo).
    pose proof (_getIgnoredProperties_frame IsArray val w)
      as (Hh & Hr & Hm & Hs & Hlog).
    destruct (_getIgnoredProperties IsArray val w) as [[set|] w1] eqn:Escan;
      simpl in *.
    + split.
      { repeat split; try assumption. simpl. intros v s Hhit. rewrite Hm.
        rewrite lookup_insert_ne; [exact Hhit|]. intros <-. congruence. }
      intros (Hsound & Hnd & Hmemo). split; [|split].
      * eapply memo_sound_transfer; [exact Hh|exact Hr| |exact Hsound].
        simpl. intros v s Hhit. rewrite Hm in Hhit.
        destruct (decide (val = v)) as [->|Hne].
        -- rewrite lookup_insert_eq in Hhit. injection Hhit as <-.
           right. now rewrite Escan.
        -- rewrite lookup_insert_ne in Hhit by assumption. now left.
      * rewrite Hs. now apply scan_is_fresh.
      * intros b _ v Hv. rewrite Hs in Hv. rewrite Hm. simpl.
        apply in_app_iff in Hv. destruct Hv as [Hv|[<-|[]]].
        -- destruct (decide (val = v)) as [->|Hne].
           ++ rewrite lookup_insert_eq. now eexists.
           ++ rewrite lookup_insert_ne by assumption. now apply Hmemo.
        -- rewrite lookup_insert_eq. now eexists.
    + split.
      { repeat split; try assumption. intros v s. now rewrite Hm. }
      intros (Hsound & Hnd & Hmemo). split; [|split].
      * eapply memo_sound_transfer; [exact Hh|exact Hr| |exact Hsound].
        intros v s Hhit. left. now rewrite <- Hm.
      * rewrite Hs. now apply scan_is_fresh.
      * intros b Hb. discriminate.
Qed.

(** Every call other than a property query leaves the world as it is. *)
Lemma exec_read_only (c : Call) (w : World) :
  (forall val key, c <> Call_canIgnoreProperty val key) ->
  snd (exec IsArray c w) = w.
Proof.
  intros Hc. destruct c as [val|val key|prototype|val name]; try reflexivity.
  now elim (Hc val key).
Qed.

Lemma exec_canIgnoreProperty (val : Ref) (key : string) (w : World)
    (a : Answer) (w' : World) :
  exec IsArray (Call_canIgnoreProperty val key) w = (Return a, w') ->
  exists b, a = Answer_bool b
            /\ canIgnoreProperty IsArray val key w = (Return b, w').
Proof.
  simpl. unfold bind, ret.
  destruct (canIgnoreProperty IsArray val key w) as [[b|] w1];
    [|discriminate].
  intros [= <- <-]. now exists b.
Qed.

Lemma exec_canIgnoreProperty_snd (val : Ref) (key : string) (w : World) :
  snd (exec IsArray (Call_canIgnoreProperty val key) w)
  = snd (canIgnoreProperty IsArray val key w).
Proof.
  simpl. unfold bind, ret.
  destruct (canIgnoreProperty IsArray val key w) as [[b|] w1]; reflexivity.
Qed.

Lemma exec_step (c : Call) (w : World) :
  let w' := snd (exec IsArray c w) in
  only_memoizes w w'
  /\ (pass_invariant IsArray w ->
      memo_sound IsArray w' /\ NoDup (scanned w')
      /\ (forall a, fst (exec IsArray c w) = Return a -> scans_memoized w')).
Proof.
  destruct c as [val|val key|prototype|val name].
  1, 3, 4: cbv zeta; rewrite exec_read_only by (intros; discriminate);
    (split; [apply only_memoizes_refl|]);
    intros (Hsound & Hnd & Hmemo); now repeat split.
  cbv zeta. rewrite exec_canIgnoreProperty_snd.
  destruct (canIgnoreProperty_step val key w) as (Hframe & Hinv).
  split; [exact Hframe|].
  intros Hpass. destruct (Hinv Hpass) as (Hsound & Hnd & Hret).
  split; [exact Hsound|]. split; [exact Hnd|].
  intros a Ha.
  destruct (exec IsArray (Call_canIgnoreProperty val key) w) as [o w'] eqn:E.
  simpl in Ha. subst o.
  destruct (exec_canIgnoreProperty _ _ _ _ _ E) as (b & _ & Hb).
  apply (Hret b). now rewrite Hb.
Qed.

(** A pass is its first part followed by the rest. *)
Lemma run_app (cs1 cs2 : list Call) :
  forall w : World,
    run IsArray (cs1 ++ cs2) w
    = match run IsArray cs1 w with
      | (Return answers1, w1) =>
          match run IsArray cs2 w1 with
          | (Return answers2, w2) => (Return (answers1 ++ answers2), w2)
          | (InvariantViolation, w2) => (InvariantViolation, w2)
          end
      | (InvariantViolation, w1) => (InvariantViolation, w1)
      end.
Proof.
  induction cs1 as [|c cs1 IH]; intros w; simpl.
  - unfold ret. destruct (run IsArray cs2 w) as [[answers2|] w2]; reflexivity.
  - unfold bind, ret. destruct (exec IsArray c w) as [[a|] w1]; [|reflexivity].
    rewrite IH. destruct (run IsArray cs1 w1) as [[answers1|] w2];
      [|reflexivity].
    destruct (run IsArray cs2 w2) as [[answers2|] w3]; reflexivity.
Qed.

Lemma run_unfold (c : Call) (cs : list Call) (w : World) :
  run IsArray (c :: cs) w
  = match exec IsArray c w with
    | (Return a, w1) =>
        match run IsArray cs w1 with
        | (Return rest, w2) => (Return (a :: rest), w2)
        | (InvariantViolation, w2) => (InvariantViolation, w2)
        end
    | (InvariantViolation, w1) => (InvariantViolation, w1)
    end.
Proof. reflexivity. Qed.

Lemma run_cons (c : Call) (cs : list Call) (w : World) :
  snd (run IsArray (c :: cs) w)
  = match exec IsArray c w with
    | (Return _, w1) => snd (run IsArray cs w1)
    | (InvariantViolation, w1) => w1
    end.
Proof.
  simpl. unfold bind, ret.
  destruct (exec IsArray c w) as [[a|] w1]; [|reflexivity].
  destruct (run IsArray cs w1) as [[rest|] w2]; reflexivity.
Qed.

Lemma run_length (cs : list Call) :
  forall (w : World) (answers : list Answer) (w' : World),
    run IsArray cs w = (Return answers, w') -> length answers = length cs.
Proof.
  induction cs as [|c cs IH]; intros w answers w'; simpl.
  - unfold ret. intros [= <- _]. reflexivity.
  - unfold bind, ret. destruct (exec IsArray c w) as [[a|] w1]; [|discriminate].
    destruct (run IsArray cs w1) as [[rest|] w2] eqn:E; [|discriminate].
    intros [= <- _]. simpl. f_equal. now apply (IH _ _ _ E).
Qed.

(** Preserved by a pass. *)
Lemma run_step (cs : list Call) :
  forall w : World,
    let w' := snd (run IsArray cs w) in
    only_memoizes w w'
    /\ (pass_invariant IsArray w ->
        memo_sound IsArray w' /\ NoDup (scanned w')).
Proof.
  induction cs as [|c cs IH]; intros w; cbv zeta.
  - simpl. split; [apply only_memoizes_refl|].
    intros (Hsound & Hnd & Hmemo). now split.
  - rewrite run_cons.
    destruct (exec_step c w) as (Hframe & Hinv).
    destruct (exec IsArray c w) as [[a|] w1] eqn:Eexec; simpl in *.
    + destruct (IH w1) as (Hframe' & Hinv').
      split; [now apply (only_memoizes_trans _ w1)|].
      intros Hpass. apply Hinv'. destruct (Hinv Hpass) as (Hs & Hnd & Hmemo).
      repeat split; [exact Hs|exact Hnd|]. now apply (Hmemo a).
    + split; [exact Hframe|]. intros Hpass. split; now apply Hinv.
Qed.

(** Used: within a pass, the outcome of a query does not depend on when it
    is made. *)
Lemma canIgnoreProperty_stable (h : Heap) (r : Realm.t)
    (log : list (Ref * string)) (calls more : list Call)
    (val : Ref) (key : string) :
  fst (canIgnoreProperty IsArray val key
         (snd (run IsArray (calls ++ more) (newInspector h r log))))
  = fst (canIgnoreProperty IsArray val key
           (snd (run IsArray calls (newInspector h r log)))).
Proof.
  pose proof (pass_invariant_new h r log) as Hnew.
  destruct (run_step calls (newInspector h r log))
    as ((Hh1 & Hr1 & _) & Hinv1).
  destruct (run_step (calls ++ more) (newInspector h r log))
    as ((Hh2 & Hr2 & _) & Hinv2).
  destruct (Hinv1 Hnew) as [Hsound1 _].
  destruct (Hinv2 Hnew) as [Hsound2 _].
  rewrite !canIgnoreProperty_answer by assumption.
  rewrite (_getIgnoredProperties_verdict IsArray val _
             (snd (run IsArray calls (newInspector h r log))));
    [reflexivity|congruence|congruence].
Qed.

End Pass_facts.

(** * Memoization *)

(** C7. Take a pass started with a fresh inspector.  When the same query,
    [canIgnoreProperty] for an object and a key, is made twice in it, with
    any calls before, between and after, the second answer is the first.
    More generally the outcome of the query is the same at every point of
    the pass.  The full scan of any one object is entered at most once in the
    pass, and once a query for an object has returned, every later query for
    it is answered from the table and leaves the world as it is. *)
Theorem canIgnoreProperty_memoized
    (IsArray : Realm.t -> Heap -> Ref -> bool)
    (h : Heap) (r : Realm.t) (log : list (Ref * string))
    (val : Ref) (key : string) :
  (forall (before between : list Call) (answers : list Answer) (w' : World),
     run IsArray
       (before ++ Call_canIgnoreProperty val key
               :: between ++ [Call_canIgnoreProperty val key])
       (newInspector h r log) = (Return answers, w') ->
     exists b : bool,
       answers !! length before = Some (Answer_bool b)
       /\ last answers = Some (Answer_bool b))
  /\ (forall calls more : list Call,
        fst (canIgnoreProperty IsArray val key
               (snd (run IsArray (calls ++ more) (newInspector h r log))))
        = fst (canIgnoreProperty IsArray val key
                 (snd (run IsArray calls (newInspector h r log)))))
  /\ (forall calls : list Call,
        count_occ Nat.eq_dec
          (scanned (snd (run IsArray calls (newInspector h r log)))) val <= 1)
  /\ (forall (w : World) (b : bool) (w' : World) (key' : string),
        canIgnoreProperty IsArray val key w = (Return b, w') ->
        snd (canIgnoreProperty IsArray val key' w') = w').
Proof.
  split; [|split; [|split]].
  - intros before between answers w' Hrun.
    rewrite run_app in Hrun.
    destruct (run IsArray before (newInspector h r log))
      as [[answers1|] w1] eqn:E1; [|discriminate].
    apply run_length in E1 as Hlen.
    change (Call_canIgnoreProperty val key
              :: between ++ [Call_canIgnoreProperty val key])
      with ((Call_canIgnoreProperty val key :: between)
              ++ [Call_canIgnoreProperty val key]) in Hrun.
    rewrite run_app in Hrun.
    destruct (run IsArray (Call_canIgnoreProperty val key :: between) w1)
      as [[answers2|] w2] eqn:E2; [|discriminate].
    pose proof (canIgnoreProperty_stable IsArray h r log before
                  (Call_canIgnoreProperty val key :: between) val key) as Hsame.
    rewrite run_app, E1, E2 in Hsame. simpl in Hsame.
    rewrite run_unfold in E2.
    destruct (exec IsArray (Call_canIgnoreProperty val key) w1)
      as [[a|] u] eqn:Efirst; [|discriminate].
    destruct (exec_canIgnoreProperty _ _ _ _ _ _ Efirst) as (b & -> & Hb).
    destruct (run IsArray between u) as [[answers3|] u'] eqn:E3; [|discriminate].
    injection E2 as <- <-.
    rewrite run_unfold in Hrun.
    destruct (exec IsArray (Call_canIgnoreProperty val key) u')
      as [[a'|] u''] eqn:Esecond; [|discriminate].
    destruct (exec_canIgnoreProperty _ _ _ _ _ _ Esecond) as (b' & -> & Hb').
    simpl in Hrun. injection Hrun as <- <-.
    rewrite Hb, Hb' in Hsame. simpl in Hsame. injection Hsame as ->.
    exists b. split.
    + rewrite <- Hlen. apply list_lookup_middle. reflexivity.
    + change (answers1 ++ Answer_bool b :: answers3 ++ [Answer_bool b])
        with (answers1 ++ (Answer_bool b :: answers3) ++ [Answer_bool b]).
      rewrite app_assoc. apply last_snoc.
  - intros calls more. apply canIgnoreProperty_stable.
  - intros calls.
    destruct (run_step IsArray calls (newInspector h r log)) as (_ & Hinv).
    destruct (Hinv (pass_invariant_new IsArray h r log)) as [_ Hnd].
    apply NoDup_ListNoDup in Hnd.
    apply (proj1 (NoDup_count_occ Nat.eq_dec _) Hnd).
  - intros w b w' key' Hcall.
    destruct (ignoredProperties w !! val) as [set|] eqn:Ememo.
    + rewrite (canIgnoreProperty_cached IsArray _ _ _ _ Ememo) in Hcall.
      injection Hcall as _ <-.
      now rewrite (canIgnoreProperty_cached IsArray _ _ _ _ Ememo).
    + rewrite (canIgnoreProperty_first IsArray _ _ _ Ememo) in Hcall.
      destruct (_getIgnoredProperties IsArray val w) as [[set|] w1];
        [|discriminate].
      injection Hcall as _ <-.
      erewrite canIgnoreProperty_cached; [reflexivity|].
      simpl. apply lookup_insert_eq.
Qed.

(** In the sample pass the first and the last call ask whether the [name] of
    function 1 can be ignored: both answer yes, and function 1 was scanned
    once. *)
Lemma canIgnoreProperty_memoized_witness :
  (exists b : bool,
     fst (run IsArray_by_class samplePass sampleWorld)
     = Return [Answer_bool b; Answer_bool true; Answer_bool false;
               Answer_bool true; Answer_bool b])
  /\ count_occ Nat.eq_dec
       (scanned (snd (run IsArray_by_class samplePass sampleWorld))) 1 <= 1.
Proof.
  destruct (canIgnoreProperty_memoized IsArray_by_class sampleHeap sampleRealm
              [] 1 "name") as (Hsame & _ & Honce & _).
  split; [|exact (Honce samplePass)].
  destruct (Hsame []
              [Call_canIgnoreProperty 1 "length"; Call_canIgnoreProperty 6 "foo";
               Call_isLeaf 5]
              [Answer_bool true; Answer_bool true; Answer_bool false;
               Answer_bool true; Answer_bool true]
              (snd (run IsArray_by_class samplePass sampleWorld))
              eq_refl) as (b & Hfirst & _).
  exists b. injection Hfirst as <-. reflexivity.
Defined.

(** * The heap is never written *)

(** C8. No call of the inspector changes the heap snapshot or the realm; the
    memoization table only grows, an entry once there staying with the set it
    has; the log of the diagnostics sink is only appended to.  This holds of
    every single call and of every pass, and the calls other than
    [canIgnoreProperty] change nothing at all. *)
Theorem inspector_leaves_heap_unchanged
    (IsArray : Realm.t -> Heap -> Ref -> bool) (w : World) :
  (forall c : Call,
     heap (snd (exec IsArray c w)) = heap w
     /\ realm (snd (exec IsArray c w)) = realm w
     /\ (forall val set,
           ignoredProperties w !! val = Some set ->
           ignoredProperties (snd (exec IsArray c w)) !! val = Some set)
     /\ exists messages,
          logger (snd (exec IsArray c w)) = logger w ++ messages)
  /\ (forall cs : list Call,
        heap (snd (run IsArray cs w)) = heap w
        /\ realm (snd (run IsArray cs w)) = realm w
        /\ (forall val set,
              ignoredProperties w !! val = Some set ->
              ignoredProperties (snd (run IsArray cs w)) !! val = Some set)
        /\ exists messages,
             logger (snd (run IsArray cs w)) = logger w ++ messages)
  /\ (forall c : Call,
        (forall val key, c <> Call_canIgnoreProperty val key) ->
        snd (exec IsArray c w) = w).
Proof.
  split; [|split].
  - intros c. exact (proj1 (exec_step IsArray c w)).
  - intros cs. exact (proj1 (run_step IsArray cs w)).
  - intros c. apply exec_read_only.
Qed.

(** The sample pass leaves the sample heap as it was and fills the table for
    the two objects it asked about. *)
Lemma inspector_leaves_heap_unchanged_witness :
  heap (snd (run IsArray_by_class samplePass sampleWorld)) = sampleHeap
  /\ ignoredProperties (snd (run IsArray_by_class samplePass sampleWorld)) !! 6
     = Some ["constructor"].
Proof.
  split; [|reflexivity].
  exact (proj1 (proj1 (proj2 (inspector_leaves_heap_unchanged IsArray_by_class
                                sampleWorld)) samplePass)).
Defined.

(** * Deleted properties *)

(** C3, as amended.  Take an object with pairwise distinct own property
    names and one of its bindings whose descriptor is absent.  At any point of
    a pass, the set a scan of the object computes does not contain that name
    and [canIgnoreProperty] does not answer [true] for it.
    [isDefaultPrototype], however, goes through the names of all own
    bindings, deleted ones included: a deleted binding with a name other than
    [constructor] makes it answer [false], and a deleted binding has no value
    for [getPropertyValue]. *)
Theorem deleted_property_never_omissible
    (IsArray : Realm.t -> Heap -> Ref -> bool)
    (h : Heap) (r : Realm.t) (log : list (Ref * string)) (calls : list Call)
    (val : Ref) (key : string) (binding : PropertyBinding.t) :
  NoDup (Map_keys (Value.properties (h val))) ->
  In (key, binding) (Value.properties (h val)) ->
  PropertyBinding.descriptor binding = None ->
  (forall set w',
     _getIgnoredProperties IsArray val
       (snd (run IsArray calls (newInspector h r log))) = (Return set, w') ->
     Set_has set key = false)
  /\ fst (canIgnoreProperty IsArray val key
            (snd (run IsArray calls (newInspector h r log)))) <> Return true
  /\ (key <> "constructor" ->
      isDefaultPrototype (snd (run IsArray calls (newInspector h r log))) val
      = false)
  /\ getPropertyValue h val key = None.
Proof.
  intros Hnd Hin Hdel.
  destruct (run_step IsArray calls (newInspector h r log))
    as ((Hh & Hr & _) & Hinv).
  destruct (Hinv (pass_invariant_new IsArray h r log)) as [Hsound _].
  set (w := snd (run IsArray calls (newInspector h r log))) in *.
  simpl in Hh, Hr.
  assert (Hscan : forall set w',
            _getIgnoredProperties IsArray val w = (Return set, w') ->
            Set_has set key = false).
  { intros set w' Hrun. destruct (Set_has set key) eqn:Ehas; [|reflexivity].
    destruct (_getIgnoredProperties_members IsArray _ _ _ _ _ Hrun Ehas)
      as (b' & d' & Hin' & Hd').
    rewrite Hh in Hin'.
    pose proof (Map_get_NoDup _ _ _ Hnd Hin) as H1.
    pose proof (Map_get_NoDup _ _ _ Hnd Hin') as H2.
    congruence. }
  split; [exact Hscan|]. split; [|split].
  - rewrite canIgnoreProperty_answer by assumption.
    destruct (_getIgnoredProperties IsArray val w) as [[set|] w'] eqn:Erun;
      simpl; [|discriminate].
    rewrite (Hscan _ _ eq_refl). discriminate.
  - intros Hkey. apply in_split in Hin.
    destruct Hin as (before & after & Hprops).
    unfold isDefaultPrototype. cbv zeta. destruct (_ || _); [reflexivity|].
    rewrite Hh, Hprops. unfold Map_keys. rewrite map_app. simpl.
    now apply isDefaultPrototype_loop_stops.
  - unfold getPropertyValue.
    rewrite (Map_get_NoDup _ _ _ Hnd Hin), Hdel. reflexivity.
Qed.

(** The deleted [foo] of object 6 is in no omissible set, at any point of a
    pass, and makes object 6 fail the default-prototype test. *)
Lemma deleted_property_never_omissible_witness :
  fst (canIgnoreProperty IsArray_by_class 6 "foo"
         (snd (run IsArray_by_class [Call_canIgnoreProperty 6 "constructor"]
                 sampleWorld))) <> Return true
  /\ isDefaultPrototype
       (snd (run IsArray_by_class [Call_canIgnoreProperty 6 "constructor"]
               sampleWorld)) 6 = false.
Proof.
  destruct (deleted_property_never_omissible IsArray_by_class sampleHeap
              sampleRealm [] [Call_canIgnoreProperty 6 "constructor"]
              6 "foo" deletedProperty sample_keys_distinct_6
              (or_intror (or_introl eq_refl)) eq_refl)
    as (_ & Hquery & Hproto & _).
  split; [exact Hquery|]. apply Hproto. discriminate.
Defined.

(** C3, counterexample.  Objects 2 and 6 have the same present properties,
    the same prototype link, extensibility and recorded constructor; object 6
    has one more binding, [foo], which is deleted.  The deleted binding
    changes the verdict of [isDefaultPrototype]. *)
Lemma deleted_property_counterexample :
  Map_get (Value.properties (heap sampleWorld 6)) "foo" = Some deletedProperty
  /\ isDefaultPrototype sampleWorld 2 = true
  /\ isDefaultPrototype sampleWorld 6 = false
  /\ ~ stated_deleted_unseen sampleWorld 2 6.
Proof.
  split; [reflexivity|]. split; [reflexivity|]. split; [reflexivity|].
  intros Hsame.
  specialize (Hsame eq_refl eq_refl eq_refl eq_refl eq_refl).
  discriminate Hsame.
Qed.

(** * The outcome of a scan *)

Lemma Map_get_In {A} (m : list (string * A)) (k : string) (a : A) :
  Map_get m k = Some a -> In (k, a) m.
Proof.
  induction m as [|[k' a'] m IH]; simpl; [discriminate|].
  destruct (String.eqb k' k) eqn:E.
  - intros [= ->]. apply String.eqb_eq in E. subst. now left.
  - intros H. right. now apply IH.
Qed.

Section Scan_outcome.

Variable IsArray : Realm.t -> Heap -> Ref -> bool.

(** A decision aborts exactly on the failed check of the
    [arguments]/[caller] rule. *)
Lemma _canIgnoreProperty_aborts (val : Ref) (key : string)
    (desc : Descriptor.t) (w : World) :
  fst (_canIgnoreProperty IsArray val key desc w) = InvariantViolation <->
  IsArray (realm w) (heap w) val = false
  /\ instanceof (heap w) val Class.FunctionValue = true
  /\ instanceof (heap w) val Class.ECMAScriptSourceFunctionValue = false
  /\ (key = "arguments" \/ key = "caller").
Proof.
  unfold _canIgnoreProperty. unfold_monad. split.
  - destruct (IsArray (realm w) (heap w) val) eqn:Harr.
    { case_tests; discriminate. }
    destruct (instanceof (heap w) val Class.FunctionValue) eqn:Hfun.
    2:{ case_tests; discriminate. }
    destruct (String.eqb key "length") eqn:Hlen.
    { case_tests; discriminate. }
    destruct (String.eqb key "name") eqn:Hname.
    { case_tests; discriminate. }
    destruct (String.eqb key "arguments" || String.eqb key "caller") eqn:Hkey.
    2:{ case_tests; discriminate. }
    destruct (instanceof (heap w) val Class.ECMAScriptSourceFunctionValue)
      eqn:Hsrc.
    { case_tests; discriminate. }
    intros _. repeat split. apply orb_true_iff in Hkey.
    destruct Hkey as [Hk|Hk]; apply String.eqb_eq in Hk; auto.
  - intros (Harr & Hfun & Hsrc & Hkey). rewrite Harr, Hfun, Hsrc.
    destruct Hkey as [-> | ->]; reflexivity.
Qed.

(** What a decision adds to the log: nothing, or the one message about a
    function whose [length] has no value slot. *)
Lemma _canIgnoreProperty_log (val : Ref) (key : string)
    (desc : Descriptor.t) (w : World) :
  snd (_canIgnoreProperty IsArray val key desc w) = w
  \/ (logger (snd (_canIgnoreProperty IsArray val key desc w))
      = logger w ++ [(val, length_accessor_message)]
      /\ key = "length" /\ Descriptor.value desc = None
      /\ IsArray (realm w) (heap w) val = false
      /\ instanceof (heap w) val Class.FunctionValue = true).
Proof.
  unfold _canIgnoreProperty. unfold_monad.
  destruct (IsArray (realm w) (heap w) val) eqn:Harr.
  { case_tests; now left. }
  destruct (instanceof (heap w) val Class.FunctionValue) eqn:Hfun.
  2:{ case_tests; now left. }
  destruct (String.eqb key "length") eqn:Hlen.
  2:{ case_tests; now left. }
  apply String.eqb_eq in Hlen.
  destruct (Descriptor.value desc) eqn:Hval; simpl; [now left|right].
  now repeat split.
Qed.

(** The outcome of the loop: it aborts exactly when the decision on one of
    the present entries aborts; otherwise the set it returns holds the names
    it started with and the names of the present entries decided omissible. *)
Lemma _getIgnoredProperties_loop_outcome (val : Ref)
    (entries : list (string * PropertyBinding.t)) :
  forall (set : list string) (w : World),
    match fst (_getIgnoredProperties_loop IsArray val entries set w) with
    | InvariantViolation =>
        exists key binding desc,
          In (key, binding) entries
          /\ PropertyBinding.descriptor binding = Some desc
          /\ fst (_canIgnoreProperty IsArray val key desc w) = InvariantViolation
    | Return set' =>
        (forall key binding desc,
           In (key, binding) entries ->
           PropertyBinding.descriptor binding = Some desc ->
           fst (_canIgnoreProperty IsArray val key desc w) <> InvariantViolation)
        /\ forall key,
             Set_has set' key = true <->
             Set_has set key = true
             \/ exists binding desc,
                  In (key, binding) entries
                  /\ PropertyBinding.descriptor binding = Some desc
                  /\ fst (_canIgnoreProperty IsArray val key desc w) = Return true
    end.
Proof.
  induction entries as [|[k b] rest IH]; intros set w; simpl.
  - split; [intros ? ? ? []|]. intros key. split; [now left|].
    intros [H|(? & ? & [] & _)]. exact H.
  - destruct (PropertyBinding.descriptor b) as [d|] eqn:Hd.
    + unfold bind.
      pose proof (_canIgnoreProperty_frame IsArray val k d w) as (Hh & Hr & _).
      destruct (_canIgnoreProperty IsArray val k d w) as [[ignore|] w1] eqn:Ek;
        simpl in Hh, Hr.
      2:{ simpl. exists k, b, d. rewrite Ek. now repeat split; [left|..]. }
      specialize (IH (if ignore then Set_add set k else set) w1).
      assert (Hsame : forall key desc,
                fst (_canIgnoreProperty IsArray val key desc w1)
                = fst (_canIgnoreProperty IsArray val key desc w)).
      { intros. now apply _canIgnoreProperty_verdict. }
      destruct (fst (_getIgnoredProperties_loop IsArray val rest
                       (if ignore then Set_add set k else set) w1))
        as [set'|].
      * destruct IH as [Hno Hmem]. split.
        -- intros key binding desc [Heq|Hin] Hdesc.
           ++ injection Heq as <- <-. rewrite Hd in Hdesc.
              injection Hdesc as <-. rewrite Ek. discriminate.
           ++ rewrite <- Hsame. now apply (Hno key binding).
        -- intros key. rewrite Hmem. split.
           ++ intros [Hset|(binding & desc & Hin & Hdesc & Hv)].
              ** destruct ignore; [|now left].
                 rewrite Set_has_add in Hset. apply orb_true_iff in Hset.
                 destruct Hset as [Hset|Heq]; [now left|right].
                 apply String.eqb_eq in Heq. subst key.
                 exists b, d. rewrite Ek. now repeat split; [left|..].
              ** right. exists binding, desc. rewrite <- Hsame.
                 now repeat split; [right|..].
           ++ intros [Hset|(binding & desc & [Heq|Hin] & Hdesc & Hv)].
              ** left. destruct ignore; [|exact Hset].
                 rewrite Set_has_add, Hset. reflexivity.
              ** injection Heq as <- <-. rewrite Hd in Hdesc.
                 injection Hdesc as <-. rewrite Ek in Hv. simpl in Hv.
                 injection Hv as ->. left.
                 rewrite Set_has_add, String.eqb_refl. apply orb_true_r.
              ** right. exists binding, desc. rewrite Hsame.
                 now repeat split.
      * destruct IH as (key & binding & desc & Hin & Hdesc & Hv).
        exists key, binding, desc. rewrite <- Hsame.
        now repeat split; [right|..].
    + specialize (IH set w).
      destruct (fst (_getIgnoredProperties_loop IsArray val rest set w))
        as [set'|].
      * destruct IH as [Hno Hmem]. split.
        -- intros key binding desc [Heq|Hin] Hdesc.
           ++ injection Heq as <- <-. congruence.
           ++ now apply (Hno key binding).
        -- intros key. rewrite Hmem. split.
           ++ intros [Hset|(binding & desc & Hin & Hdesc & Hv)]; [now left|].
              right. exists binding, desc. now repeat split; [right|..].
           ++ intros [Hset|(binding & desc & [Heq|Hin] & Hdesc & Hv)];
                [now left| |].
              ** injection Heq as <- <-. congruence.
              ** right. exists binding, desc. now repeat split.
      * destruct IH as (key & binding & desc & Hin & Hdesc & Hv).
        exists key, binding, desc. now repeat split; [right|..].
Qed.

End Scan_outcome.

Section Query_outcome.

Variable IsArray : Realm.t -> Heap -> Ref -> bool.

(** The outcome of a scan, in terms of the world it starts in. *)
Lemma _getIgnoredProperties_outcome (val : Ref) (w : World) :
  match fst (_getIgnoredProperties IsArray val w) with
  | InvariantViolation => trips_check IsArray (heap w) (realm w) val
  | Return set =>
      ~ trips_check IsArray (heap w) (realm w) val
      /\ forall key,
           Set_has set key = true <->
           exists desc,
             live (heap w) val key desc
             /\ fst (_canIgnoreProperty IsArray val key desc w) = Return true
  end.
Proof.
  unfold _getIgnoredProperties. unfold_monad. simpl.
  set (w0 := {| heap := heap w; realm := realm w; logger := logger w;
                ignoredProperties := ignoredProperties w;
                scanned := scanned w ++ [val] |}).
  assert (Hsame : forall key desc,
            fst (_canIgnoreProperty IsArray val key desc w0)
            = fst (_canIgnoreProperty IsArray val key desc w)).
  { intros. now apply _canIgnoreProperty_verdict. }
  pose proof (_getIgnoredProperties_loop_outcome IsArray val
                (Value.properties (heap w val)) [] w0) as Hout.
  destruct (fst (_getIgnoredProperties_loop IsArray val
                   (Value.properties (heap w val)) [] w0)) as [set|].
  - destruct Hout as [Hno Hmem]. split.
    + intros (Harr & Hfun & Hsrc & key & desc & (binding & Hin & Hdesc) & Hkey).
      apply (Hno key binding desc Hin Hdesc). rewrite Hsame.
      apply _canIgnoreProperty_aborts. now repeat split.
    + intros key. rewrite Hmem. split.
      * intros [Hset|(binding & desc & Hin & Hdesc & Hv)]; [discriminate|].
        exists desc. rewrite <- Hsame. split; [now exists binding|exact Hv].
      * intros (desc & (binding & Hin & Hdesc) & Hv). right.
        exists binding, desc. rewrite Hsame. now repeat split.
  - destruct Hout as (key & binding & desc & Hin & Hdesc & Hv).
    rewrite Hsame in Hv. apply _canIgnoreProperty_aborts in Hv.
    destruct Hv as (Harr & Hfun & Hsrc & Hkey).
    repeat split; try assumption. exists key, desc.
    split; [now exists binding|exact Hkey].
Qed.

(** The outcome of a query in a world whose table is sound. *)
Lemma canIgnoreProperty_outcome (val : Ref) (key : string) (w : World) :
  memo_sound IsArray w ->
  (fst (canIgnoreProperty IsArray val key w) = InvariantViolation <->
   trips_check IsArray (heap w) (realm w) val)
  /\ (fst (canIgnoreProperty IsArray val key w) = Return true <->
      ~ trips_check IsArray (heap w) (realm w) val
      /\ exists desc,
           live (heap w) val key desc
           /\ fst (_canIgnoreProperty IsArray val key desc w) = Return true).
Proof.
  intros Hsound. rewrite (canIgnoreProperty_answer IsArray val key w Hsound).
  pose proof (_getIgnoredProperties_outcome val w) as Hout.
  destruct (fst (_getIgnoredProperties IsArray val w)) as [set|].
  - destruct Hout as [Hno Hmem]. split.
    + split; [discriminate|]. intros Htrips. now elim Hno.
    + rewrite <- Hmem. split.
      * intros [= ->]. now split.
      * intros [_ ->]. reflexivity.
  - split.
    + now split.
    + split; [discriminate|]. intros [Hno _]. now elim Hno.
Qed.

(** A pass keeps the heap and the realm and reaches a world whose table is
    sound. *)
Lemma pass_world_facts (h : Heap) (r : Realm.t) (log : list (Ref * string))
    (calls : list Call) :
  heap (pass_world IsArray h r log calls) = h
  /\ realm (pass_world IsArray h r log calls) = r
  /\ memo_sound IsArray (pass_world IsArray h r log calls)
  /\ NoDup (scanned (pass_world IsArray h r log calls)).
Proof.
  unfold pass_world.
  destruct (run_step IsArray calls (newInspector h r log))
    as ((Hh & Hr & _) & Hinv).
  destruct (Hinv (pass_invariant_new IsArray h r log)) as [Hsound Hnd].
  now repeat split.
Qed.

End Query_outcome.

(** * The rule table, branch by branch *)

Section Decision_table.

Variable IsArray : Realm.t -> Heap -> Ref -> bool.

Lemma decision_array (val : Ref) (key : string) (desc : Descriptor.t)
    (w : World) :
  IsArray (realm w) (heap w) val = true ->
  _canIgnoreProperty IsArray val key desc w
  = (Return (String.eqb key "length"
             && Descriptor.writable desc
             && negb (Descriptor.enumerable desc)
             && negb (Descriptor.configurable desc)
             || constructor_rule (heap w) val key desc), w).
Proof.
  intros Harr. unfold _canIgnoreProperty. unfold_monad. rewrite Harr.
  destruct (_ && _); reflexivity.
Qed.

Lemma decision_plain (val : Ref) (key : string) (desc : Descriptor.t)
    (w : World) :
  IsArray (realm w) (heap w) val = false ->
  instanceof (heap w) val Class.FunctionValue = false ->
  _canIgnoreProperty IsArray val key desc w
  = (Return (if String.eqb (Value.getKind (heap w val)) "RegExp"
                && (String.eqb key "lastIndex"
                    && Descriptor.writable desc
                    && negb (Descriptor.enumerable desc)
                    && negb (Descriptor.configurable desc))
             then match Descriptor.value desc with
                  | Some v =>
                      instanceof (heap w) v Class.NumberValue
                      && strictEq (Value.value (heap w v))
                           (JSnumber (S754_zero false))
                  | None => false
                  end
             else constructor_rule (heap w) val key desc), w).
Proof.
  intros Harr Hfun. unfold _canIgnoreProperty. unfold_monad.
  rewrite Harr, Hfun. destruct (_ && _); reflexivity.
Qed.

Lemma decision_function_prototype (val : Ref) (desc : Descriptor.t)
    (w : World) :
  IsArray (realm w) (heap w) val = false ->
  instanceof (heap w) val Class.FunctionValue = true ->
  _canIgnoreProperty IsArray val "prototype" desc w
  = (Return (negb (Descriptor.configurable desc)
             && negb (Descriptor.enumerable desc)
             && Descriptor.writable desc
             && instanceof_opt (heap w) (Descriptor.value desc) Class.ObjectValue
             && match Descriptor.value desc with
                | Some v => sameRef (Value.originalConstructor (heap w v)) (Some val)
                | None => false
                end), w).
Proof.
  intros Harr Hfun. unfold _canIgnoreProperty. unfold_monad.
  rewrite Harr, Hfun. cbn [String.eqb Ascii.eqb Bool.eqb orb andb].
  destruct (_ && _); reflexivity.
Qed.

Lemma decision_constructor (val : Ref) (desc : Descriptor.t) (w : World) :
  _canIgnoreProperty IsArray val "constructor" desc w
  = (Return (Descriptor.configurable desc
             && negb (Descriptor.enumerable desc)
             && Descriptor.writable desc
             && sameRef (Descriptor.value desc)
                  (Value.originalConstructor (heap w val))), w).
Proof.
  unfold _canIgnoreProperty, constructor_rule. unfold_monad.
  cbn [String.eqb Ascii.eqb Bool.eqb orb andb].
  destruct (IsArray (realm w) (heap w) val);
    [|destruct (instanceof (heap w) val Class.FunctionValue)];
    try rewrite andb_false_r;
    destruct (Descriptor.configurable desc && negb (Descriptor.enumerable desc)
              && Descriptor.writable desc
              && sameRef (Descriptor.value desc)
                   (Value.originalConstructor (heap w val)));
    reflexivity.
Qed.

Lemma decision_unruled (val : Ref) (key : string) (desc : Descriptor.t)
    (w : World) :
  ~ In key ruled_names ->
  _canIgnoreProperty IsArray val key desc w = (Return false, w).
Proof.
  intros Hkey.
  assert (Hne : forall name, In name ruled_names -> String.eqb key name = false).
  { intros name Hin. apply String.eqb_neq. intros ->. now apply Hkey. }
  unfold _canIgnoreProperty, constructor_rule. unfold_monad.
  rewrite (Hne "length"), (Hne "name"), (Hne "arguments"), (Hne "caller"),
    (Hne "prototype"), (Hne "lastIndex"), (Hne "constructor")
    by (unfold ruled_names; simpl; tauto).
  simpl. rewrite !andb_false_r.
  destruct (IsArray (realm w) (heap w) val);
    [|destruct (instanceof (heap w) val Class.FunctionValue)]; reflexivity.
Qed.

End Decision_table.

(** * What reaches the log *)

Lemma messages_about_app (v : Ref) (l1 l2 : list (Ref * string)) :
  messages_about v (l1 ++ l2) = messages_about v l1 + messages_about v l2.
Proof. unfold messages_about. now rewrite List.filter_app, length_app. Qed.

Lemma filter_eqb_NoDup (k : string) (l : list string) :
  NoDup l -> length (List.filter (String.eqb k) l) <= 1.
Proof.
  induction l as [|a l IH]; intros Hnd; simpl; [lia|].
  apply NoDup_cons in Hnd as [Hfresh Hnd].
  destruct (String.eqb k a) eqn:E; [|now apply IH].
  apply String.eqb_eq in E. subst a. simpl.
  assert (Hnone : List.filter (String.eqb k) l = []).
  { clear -Hfresh. induction l as [|b l IHl]; simpl; [reflexivity|].
    destruct (String.eqb k b) eqn:E.
    - apply String.eqb_eq in E. subst b. exfalso. apply Hfresh. now left.
    - apply IHl. intros Hin. apply Hfresh. now right. }
  rewrite Hnone. simpl. lia.
Qed.

Section Log_facts.

Variable IsArray : Realm.t -> Heap -> Ref -> bool.

(** What the loop adds to the log: at most one message per entry named
    [length], each about the object scanned. *)
Lemma _getIgnoredProperties_loop_log (val : Ref)
    (entries : list (string * PropertyBinding.t)) :
  forall (set : list string) (w : World),
    exists messages,
      logger (snd (_getIgnoredProperties_loop IsArray val entries set w))
      = logger w ++ messages
      /\ length messages
         <= length (List.filter (String.eqb "length") (map fst entries))
      /\ Forall (fun m => m = (val, length_accessor_message)) messages
      /\ (messages <> [] ->
          IsArray (realm w) (heap w) val = false
          /\ instanceof (heap w) val Class.FunctionValue = true
          /\ exists binding desc,
               In ("length", binding) entries
               /\ PropertyBinding.descriptor binding = Some desc
               /\ Descriptor.value desc = None).
Proof.
  induction entries as [|[k b] rest IH]; intros set w;
    cbn [_getIgnoredProperties_loop List.map fst List.filter].
  - exists []. rewrite app_nil_r. split; [reflexivity|].
    split; [simpl; lia|]. split; [constructor|]. intros Hne. now elim Hne.
  - destruct (PropertyBinding.descriptor b) as [d|] eqn:Hd.
    + unfold bind.
      pose proof (_canIgnoreProperty_frame IsArray val k d w) as (Hh & Hr & _).
      pose proof (_canIgnoreProperty_log IsArray val k d w) as Hlog.
      destruct (_canIgnoreProperty IsArray val k d w) as [[ignore|] w1];
        simpl in Hh, Hr, Hlog.
      * destruct (IH (if ignore then Set_add set k else set) w1)
          as (ms & Hms & Hlen & Hall & Hwhy).
        rewrite Hh, Hr in Hwhy.
        destruct Hlog as [->|(Hl & -> & Hv & Harr & Hfun)].
        -- exists ms. split; [exact Hms|]. split.
           { destruct (String.eqb "length" k); cbn [length]; lia. }
           split; [exact Hall|]. intros Hne.
           destruct (Hwhy Hne) as (? & ? & b' & d' & Hin & Hd' & Hv').
           repeat split; try assumption. exists b', d'.
           now repeat split; [right|..].
        -- exists ((val, length_accessor_message) :: ms). split.
           { rewrite Hms, Hl, <- app_assoc. reflexivity. }
           split; [rewrite String.eqb_refl; cbn [length]; lia|].
           split; [now constructor|].
           intros _. repeat split; try assumption.
           exists b, d. now repeat split; [left|..].
      * destruct Hlog as [->|(Hl & -> & Hv & Harr & Hfun)].
        -- exists []. rewrite app_nil_r. split; [reflexivity|].
           split; [cbn [length]; lia|]. split; [constructor|].
           intros Hne. now elim Hne.
        -- exists [(val, length_accessor_message)]. split; [exact Hl|].
           split; [rewrite String.eqb_refl; cbn [length]; lia|].
           split; [now repeat constructor|].
           intros _. repeat split; try assumption.
           exists b, d. now repeat split; [left|..].
    + destruct (IH set w) as (ms & Hms & Hlen & Hall & Hwhy).
      exists ms. split; [exact Hms|]. split.
      { destruct (String.eqb "length" k); cbn [length]; lia. }
      split; [exact Hall|]. intros Hne.
      destruct (Hwhy Hne) as (? & ? & b' & d' & Hin & Hd' & Hv').
      repeat split; try assumption. exists b', d'.
      now repeat split; [right|..].
Qed.

(** What one query adds to the log and to the scan history. *)
Lemma canIgnoreProperty_log (val : Ref) (key : string) (w : World) :
  exists messages scans,
    logger (snd (canIgnoreProperty IsArray val key w)) = logger w ++ messages
    /\ scanned (snd (canIgnoreProperty IsArray val key w)) = scanned w ++ scans
    /\ (NoDup (Map_keys (Value.properties (heap w val))) ->
        forall v, messages_about v messages <= count_occ Nat.eq_dec scans v)
    /\ Forall (fun m => fst m = val
                        /\ accessor_length_report IsArray (heap w) (realm w) m)
         messages.
Proof.
  destruct (ignoredProperties w !! val) as [set|] eqn:Ememo.
  { rewrite (canIgnoreProperty_cached IsArray _ _ _ _ Ememo). simpl.
    exists [], []. rewrite !app_nil_r. repeat split; [|constructor].
    intros _ v. reflexivity. }
  rewrite (canIgnoreProperty_first IsArray _ _ _ Ememo).
  unfold _getIgnoredProperties. unfold_monad. simpl.
  set (w0 := {| heap := heap w; realm := realm w; logger := logger w;
                ignoredProperties := ignoredProperties w;
                scanned := scanned w ++ [val] |}).
  destruct (_getIgnoredProperties_loop_log val
              (Value.properties (heap w val)) [] w0)
    as (ms & Hms & Hlen & Hall & Hwhy).
  pose proof (_getIgnoredProperties_loop_frame IsArray val
                (Value.properties (heap w val)) [] w0) as (_ & _ & _ & Hs & _).
  assert (Hone : NoDup (Map_keys (Value.properties (heap w val))) ->
                 length ms <= 1).
  { intros Hnd. etrans; [exact Hlen|]. now apply filter_eqb_NoDup. }
  exists ms, [val].
  destruct (_getIgnoredProperties_loop IsArray val
              (Value.properties (heap w val)) [] w0) as [[set|] w1];
    simpl in *.
  all: split; [exact Hms|]; split; [exact Hs|]; split.
  all: try (intros Hnd v; specialize (Hone Hnd); unfold messages_about;
            destruct ms as [|m [|m' ms]]; simpl in *; try lia;
            inversion Hall; subst; simpl;
            destruct (Nat.eqb val v) eqn:E;
            [apply Nat.eqb_eq in E; subst;
             destruct (Nat.eq_dec v v); [simpl; lia|congruence]
            |simpl; lia]).
  all: destruct ms as [|m ms]; [constructor|];
    destruct (Hwhy ltac:(discriminate)) as (Harr & Hfun & b & d & Hin & Hd & Hv);
    apply Forall_forall; intros x Hx;
    rewrite Forall_forall in Hall; rewrite (Hall x Hx);
    repeat split; try assumption;
    exists d; split; [now exists b|exact Hv].
Qed.

End Log_facts.

Section Pass_log.

Variable IsArray : Realm.t -> Heap -> Ref -> bool.

(** What a pass adds to the log and to the scan history. *)
Lemma run_log (h : Heap) (r : Realm.t) (cs : list Call) :
  forall w : World,
    heap w = h -> realm w = r ->
    exists messages scans,
      logger (snd (run IsArray cs w)) = logger w ++ messages
      /\ scanned (snd (run IsArray cs w)) = scanned w ++ scans
      /\ ((forall o, NoDup (Map_keys (Value.properties (h o)))) ->
          forall v, messages_about v messages <= count_occ Nat.eq_dec scans v)
      /\ Forall (accessor_length_report IsArray h r) messages.
Proof.
  induction cs as [|c cs IH]; intros w Hh Hr.
  - simpl. exists [], []. rewrite !app_nil_r. repeat split; [|constructor].
    intros _ v. reflexivity.
  - rewrite run_cons.
    assert (Hexec : exists messages scans,
              logger (snd (exec IsArray c w)) = logger w ++ messages
              /\ scanned (snd (exec IsArray c w)) = scanned w ++ scans
              /\ ((forall o, NoDup (Map_keys (Value.properties (h o)))) ->
                  forall v,
                    messages_about v messages <= count_occ Nat.eq_dec scans v)
              /\ Forall (accessor_length_report IsArray h r) messages).
    { destruct c as [val|val key|prototype|val name].
      1, 3, 4: rewrite exec_read_only by (intros; discriminate);
        exists [], []; rewrite !app_nil_r;
        (repeat split; [|constructor]); intros _ v; reflexivity.
      rewrite exec_canIgnoreProperty_snd.
      destruct (canIgnoreProperty_log IsArray val key w)
        as (ms & sc & Hms & Hsc & Hcount & Hall).
      rewrite Hh, Hr in *. exists ms, sc. repeat split; try assumption.
      - intros Hnd. apply Hcount, Hnd.
      - eapply Forall_impl; [exact Hall|]. now intros m [_ Hm]. }
    destruct Hexec as (ms & sc & Hms & Hsc & Hcount & Hall).
    destruct (exec_step IsArray c w) as ((Hh1 & Hr1 & _) & _).
    destruct (exec IsArray c w) as [[a|] w1]; cbn [snd fst] in *.
    + destruct (IH w1) as (ms' & sc' & Hms' & Hsc' & Hcount' & Hall');
        [congruence|congruence|].
      exists (ms ++ ms'), (sc ++ sc'). split; [|split; [|split]].
      * now rewrite Hms', Hms, app_assoc.
      * now rewrite Hsc', Hsc, app_assoc.
      * intros Hnd v. rewrite messages_about_app, count_occ_app.
        apply Nat.add_le_mono; [apply Hcount|apply Hcount']; exact Hnd.
      * now apply Forall_app.
    + exists ms, sc. now repeat split.
Qed.

End Pass_log.

(** * Further properties: the outcome of a query *)

(** X1. At any point of a pass, a query about an object aborts exactly when
    the object is a function, not array-kind and not source-defined, that
    owns a present [arguments] or [caller] property; which key is asked
    about plays no part. *)
Theorem canIgnoreProperty_aborts_exactly
    (IsArray : Realm.t -> Heap -> Ref -> bool)
    (h : Heap) (r : Realm.t) (log : list (Ref * string)) (calls : list Call)
    (val : Ref) (key : string) :
  fst (canIgnoreProperty IsArray val key (pass_world IsArray h r log calls))
  = InvariantViolation
  <-> trips_check IsArray h r val.
Proof.
  destruct (pass_world_facts IsArray h r log calls) as (Hh & Hr & Hsound & _).
  rewrite (proj1 (canIgnoreProperty_outcome IsArray val key _ Hsound)).
  now rewrite Hh, Hr.
Qed.

(** The native function 8 owns a [caller]: asking about its [length] aborts. *)
Lemma canIgnoreProperty_aborts_exactly_witness :
  fst (canIgnoreProperty IsArray_by_class 8 "length"
         (pass_world IsArray_by_class sampleHeap sampleRealm [] []))
  = InvariantViolation.
Proof.
  apply (canIgnoreProperty_aborts_exactly IsArray_by_class sampleHeap
           sampleRealm [] [] 8 "length").
  repeat split. exists "caller", (Descriptor.mk (Some 12) true false true).
  split; [|now right]. exists (dataProperty (Some 12) true false true).
  split; [now left|reflexivity].
Defined.

(** X2. At any point of a pass, a query answers [true] exactly when it does
    not abort and the object owns a present property of that name whose
    descriptor the per-property decision judges omissible: the memoized
    answer is the per-property decision. *)
Theorem canIgnoreProperty_true_exactly
    (IsArray : Realm.t -> Heap -> Ref -> bool)
    (h : Heap) (r : Realm.t) (log : list (Ref * string)) (calls : list Call)
    (val : Ref) (key : string) :
  fst (canIgnoreProperty IsArray val key (pass_world IsArray h r log calls))
  = Return true
  <-> ~ trips_check IsArray h r val
      /\ exists desc,
           live h val key desc
           /\ fst (_canIgnoreProperty IsArray val key desc
                     (pass_world IsArray h r log calls)) = Return true.
Proof.
  destruct (pass_world_facts IsArray h r log calls) as (Hh & Hr & Hsound & _).
  rewrite (proj2 (canIgnoreProperty_outcome IsArray val key _ Hsound)).
  now rewrite Hh, Hr.
Qed.

(** The [caller] of function 1 has the poison-pill shape. *)
Lemma canIgnoreProperty_true_exactly_witness :
  fst (canIgnoreProperty IsArray_by_class 1 "caller"
         (pass_world IsArray_by_class sampleHeap sampleRealm [] samplePass))
  = Return true.
Proof.
  apply (canIgnoreProperty_true_exactly IsArray_by_class sampleHeap
           sampleRealm [] samplePass 1 "caller").
  split.
  - intros (_ & _ & Hsrc & _). discriminate Hsrc.
  - exists poisonPill. split; [|reflexivity].
    exists (dataProperty (Some 12) true false true).
    split; [do 3 right; now left|reflexivity].
Defined.

(** X3. A name that is not among the own property names of an object is
    never judged omissible; in particular no property of an object without
    own properties is. *)
Theorem canIgnoreProperty_missing_key
    (IsArray : Realm.t -> Heap -> Ref -> bool)
    (h : Heap) (r : Realm.t) (log : list (Ref * string)) (calls : list Call)
    (val : Ref) (key : string) :
  ~ In key (Map_keys (Value.properties (h val))) ->
  fst (canIgnoreProperty IsArray val key (pass_world IsArray h r log calls))
  <> Return true
  /\ (~ trips_check IsArray h r val ->
      fst (canIgnoreProperty IsArray val key (pass_world IsArray h r log calls))
      = Return false).
Proof.
  intros Hmissing.
  destruct (pass_world_facts IsArray h r log calls) as (Hh & Hr & Hsound & _).
  destruct (canIgnoreProperty_outcome IsArray val key _ Hsound)
    as [Habort Htrue].
  rewrite Hh, Hr in Habort, Htrue.
  assert (Hnot : fst (canIgnoreProperty IsArray val key
                        (pass_world IsArray h r log calls)) <> Return true).
  { intros Hyes. apply Htrue in Hyes.
    destruct Hyes as (_ & desc & (binding & Hin & _) & _).
    apply Hmissing. unfold Map_keys. change key with (fst (key, binding)).
    now apply in_map. }
  split; [exact Hnot|]. intros Hno.
  destruct (fst (canIgnoreProperty IsArray val key
                   (pass_world IsArray h r log calls))) as [[|]|].
  - now elim Hnot.
  - reflexivity.
  - elim Hno. now apply Habort.
Qed.

(** The base object prototype of the sample heap has no own property. *)
Lemma canIgnoreProperty_missing_key_witness :
  fst (canIgnoreProperty IsArray_by_class 0 "constructor"
         (pass_world IsArray_by_class sampleHeap sampleRealm [] samplePass))
  = Return false.
Proof.
  apply (canIgnoreProperty_missing_key IsArray_by_class sampleHeap
           sampleRealm [] samplePass 0 "constructor").
  - intros [].
  - intros (_ & Hfun & _). discriminate Hfun.
Defined.

(** * Further properties: the rules, seen through a query *)

(** A query that neither aborts nor answers [true] answers [false]. *)
Lemma outcome_false (o : Outcome bool) :
  o <> InvariantViolation -> o <> Return true -> o = Return false.
Proof.
  destruct o as [[|]|]; intros H1 H2; [now elim H2|reflexivity|now elim H1].
Qed.

(** A query about an object that is array-kind, or is not a function, logs
    nothing. *)
Lemma canIgnoreProperty_silent (IsArray : Realm.t -> Heap -> Ref -> bool)
    (val : Ref) (key : string) (w : World) :
  IsArray (realm w) (heap w) val = true
  \/ instanceof (heap w) val Class.FunctionValue = false ->
  logger (snd (canIgnoreProperty IsArray val key w)) = logger w.
Proof.
  intros Hkind.
  destruct (canIgnoreProperty_log IsArray val key w)
    as (ms & sc & Hms & _ & _ & Hall).
  rewrite Hms. destruct ms as [|m ms]; [apply app_nil_r|].
  exfalso. inversion Hall as [|? ? (Hval & _ & Harr & Hfun & _) _]; subst.
  destruct Hkind; congruence.
Qed.

(** X4. An array-kind object, at any point of a pass: a query about it never
    aborts and logs nothing; its [length] is omissible exactly when it is
    present with a descriptor that is writable, not enumerable and not
    configurable; and no property other than [length] and [constructor] is
    omissible, the rules for functions and regular expressions never
    applying. *)
Theorem array_rule
    (IsArray : Realm.t -> Heap -> Ref -> bool)
    (h : Heap) (r : Realm.t) (log : list (Ref * string)) (calls : list Call)
    (val : Ref) :
  IsArray r h val = true ->
  (forall key,
     fst (canIgnoreProperty IsArray val key (pass_world IsArray h r log calls))
     <> InvariantViolation
     /\ logger (snd (canIgnoreProperty IsArray val key
                       (pass_world IsArray h r log calls)))
        = logger (pass_world IsArray h r log calls))
  /\ (fst (canIgnoreProperty IsArray val "length"
             (pass_world IsArray h r log calls)) = Return true
      <-> exists desc,
            live h val "length" desc
            /\ Descriptor.writable desc = true
            /\ Descriptor.enumerable desc = false
            /\ Descriptor.configurable desc = false)
  /\ (forall key,
        key <> "length" -> key <> "constructor" ->
        fst (canIgnoreProperty IsArray val key
               (pass_world IsArray h r log calls)) = Return false).
Proof.
  intros Harr.
  destruct (pass_world_facts IsArray h r log calls) as (Hh & Hr & Hsound & _).
  set (w := pass_world IsArray h r log calls) in *.
  assert (Hw : IsArray (realm w) (heap w) val = true) by now rewrite Hh, Hr.
  assert (Hno : ~ trips_check IsArray (heap w) (realm w) val).
  { intros (Hnot & _). congruence. }
  assert (Habort : forall key,
            fst (canIgnoreProperty IsArray val key w) <> InvariantViolation).
  { intros key Ha.
    now apply (proj1 (canIgnoreProperty_outcome IsArray val key w Hsound)) in Ha. }
  split; [|split].
  - intros key. split; [apply Habort|]. apply canIgnoreProperty_silent. now left.
  - rewrite (proj2 (canIgnoreProperty_outcome IsArray val "length" w Hsound)).
    rewrite Hh. split.
    + intros (_ & desc & Hlive & Hv). exists desc. split; [exact Hlive|].
      rewrite (decision_array IsArray _ _ _ _ Hw) in Hv. simpl in Hv.
      injection Hv as Hv. rewrite orb_false_r in Hv.
      rewrite !andb_true_iff, !negb_true_iff in Hv. tauto.
    + intros (desc & Hlive & Hwr & Hen & Hco). split; [now rewrite <- Hh|].
      exists desc. split; [exact Hlive|].
      rewrite (decision_array IsArray _ _ _ _ Hw). simpl.
      now rewrite Hwr, Hen, Hco.
  - intros key Hlen Hctor. apply outcome_false; [apply Habort|].
    rewrite (proj2 (canIgnoreProperty_outcome IsArray val key w Hsound)).
    intros (_ & desc & _ & Hv).
    rewrite (decision_array IsArray _ _ _ _ Hw) in Hv.
    unfold constructor_rule in Hv.
    apply String.eqb_neq in Hlen, Hctor. rewrite Hlen, Hctor in Hv.
    discriminate Hv.
Qed.

(** Array 20 keeps the [length] the runtime gave it; array 23 had its
    [length] made configurable. *)
Lemma array_rule_witness :
  fst (canIgnoreProperty IsArray_by_class 20 "length"
         (pass_world IsArray_by_class sampleHeap2 sampleRealm [] []))
  = Return true
  /\ fst (canIgnoreProperty IsArray_by_class 20 "0"
            (pass_world IsArray_by_class sampleHeap2 sampleRealm [] []))
     = Return false
  /\ fst (canIgnoreProperty IsArray_by_class 23 "length"
            (pass_world IsArray_by_class sampleHeap2 sampleRealm [] []))
     <> Return true.
Proof.
  destruct (array_rule IsArray_by_class sampleHeap2 sampleRealm [] [] 20
              eq_refl) as (_ & Hlength & Hother).
  destruct (array_rule IsArray_by_class sampleHeap2 sampleRealm [] [] 23
              eq_refl) as (_ & Hlength' & _).
  split; [|split].
  - apply Hlength. exists (Descriptor.mk (Some 10) true false false).
    split; [|now repeat split].
    exists (dataProperty (Some 10) true false false).
    split; [right; now left|reflexivity].
  - apply Hother; discriminate.
  - intros Hyes. apply Hlength' in Hyes.
    destruct Hyes as (desc & (binding & [Heq|[]] & Hdesc) & _ & _ & Hco).
    injection Heq as <-. injection Hdesc as <-. discriminate Hco.
Defined.

(** X5. An object that is neither array-kind nor a function, at any point of
    a pass: a query about it never aborts and logs nothing; the only
    properties that can be omissible are [constructor] and, when the object
    is of kind "RegExp", [lastIndex]; and the [lastIndex] of a regular
    expression is omissible exactly when it is present with a descriptor that
    is writable, not enumerable, not configurable, and whose value is a
    number value equal to zero (either zero). *)
Theorem plain_object_rule
    (IsArray : Realm.t -> Heap -> Ref -> bool)
    (h : Heap) (r : Realm.t) (log : list (Ref * string)) (calls : list Call)
    (val : Ref) :
  IsArray r h val = false ->
  instanceof h val Class.FunctionValue = false ->
  (forall key,
     fst (canIgnoreProperty IsArray val key (pass_world IsArray h r log calls))
     <> InvariantViolation
     /\ logger (snd (canIgnoreProperty IsArray val key
                       (pass_world IsArray h r log calls)))
        = logger (pass_world IsArray h r log calls))
  /\ (forall key,
        fst (canIgnoreProperty IsArray val key
               (pass_world IsArray h r log calls)) = Return true ->
        key = "constructor"
        \/ (key = "lastIndex" /\ Value.getKind (h val) = "RegExp"))
  /\ (Value.getKind (h val) = "RegExp" ->
      (fst (canIgnoreProperty IsArray val "lastIndex"
              (pass_world IsArray h r log calls)) = Return true
       <-> exists desc v,
             live h val "lastIndex" desc
             /\ Descriptor.writable desc = true
             /\ Descriptor.enumerable desc = false
             /\ Descriptor.configurable desc = false
             /\ Descriptor.value desc = Some v
             /\ instanceof h v Class.NumberValue = true
             /\ exists zero_sign,
                  Value.value (h v) = JSnumber (S754_zero zero_sign))).
Proof.
  intros Harr Hfun.
  destruct (pass_world_facts IsArray h r log calls) as (Hh & Hr & Hsound & _).
  set (w := pass_world IsArray h r log calls) in *.
  assert (Hwa : IsArray (realm w) (heap w) val = false) by now rewrite Hh, Hr.
  assert (Hwf : instanceof (heap w) val Class.FunctionValue = false)
    by now rewrite Hh.
  assert (Hno : ~ trips_check IsArray (heap w) (realm w) val).
  { intros (_ & Hnot & _). congruence. }
  assert (Hzero : forall p, strictEq p (JSnumber (S754_zero false)) = true
                            <-> exists s, p = JSnumber (S754_zero s)).
  { intros p. split.
    - destruct p as [| |x|]; try discriminate.
      destruct x as [s|s| |s m e];
        [now exists s|destruct s; discriminate|discriminate
        |destruct s; discriminate].
    - intros [s ->]. reflexivity. }
  split; [|split].
  - intros key. split.
    + intros Ha.
      now apply (proj1 (canIgnoreProperty_outcome IsArray val key w Hsound)) in Ha.
    + apply canIgnoreProperty_silent. now right.
  - intros key Hyes.
    apply (proj2 (canIgnoreProperty_outcome IsArray val key w Hsound)) in Hyes.
    destruct Hyes as (_ & desc & _ & Hv).
    rewrite (decision_plain IsArray _ _ _ _ Hwa Hwf) in Hv. simpl in Hv.
    rewrite Hh in Hv.
    destruct (String.eqb (Value.getKind (h val)) "RegExp") eqn:Hkind;
      [destruct (String.eqb key "lastIndex") eqn:Hkey|]; simpl in Hv.
    + right. split; now apply String.eqb_eq.
    + left. unfold constructor_rule in Hv.
      destruct (String.eqb key "constructor") eqn:Hc; [|discriminate].
      now apply String.eqb_eq.
    + left. unfold constructor_rule in Hv.
      destruct (String.eqb key "constructor") eqn:Hc; [|discriminate].
      now apply String.eqb_eq.
  - intros Hkind.
    rewrite (proj2 (canIgnoreProperty_outcome IsArray val "lastIndex" w Hsound)).
    rewrite Hh. split.
    + intros (_ & desc & Hlive & Hv). exists desc.
      rewrite (decision_plain IsArray _ _ _ _ Hwa Hwf) in Hv. simpl in Hv.
      rewrite Hh, Hkind in Hv. simpl in Hv.
      destruct (Descriptor.writable desc), (Descriptor.enumerable desc),
        (Descriptor.configurable desc); simpl in Hv; try discriminate.
      destruct (Descriptor.value desc) as [v|]; [|discriminate].
      injection Hv as Hv. apply andb_true_iff in Hv as [Hnum Hz].
      exists v. repeat split; try assumption. now apply Hzero.
    + intros (desc & v & Hlive & Hwr & Hen & Hco & Hval & Hnum & Hz).
      split; [now rewrite <- Hh|]. exists desc. split; [exact Hlive|].
      rewrite (decision_plain IsArray _ _ _ _ Hwa Hwf). simpl.
      rewrite Hh, Hkind, Hwr, Hen, Hco, Hval, Hnum. simpl.
      now rewrite (proj2 (Hzero _) Hz).
Qed.

(** The regular expression 21 has a [lastIndex] of -0 with the default
    flags. *)
Lemma plain_object_rule_witness :
  fst (canIgnoreProperty IsArray_by_class 21 "lastIndex"
         (pass_world IsArray_by_class sampleHeap2 sampleRealm [] []))
  = Return true.
Proof.
  destruct (plain_object_rule IsArray_by_class sampleHeap2 sampleRealm [] [] 21
              eq_refl eq_refl) as (_ & _ & Hlast).
  apply (Hlast eq_refl).
  exists (Descriptor.mk (Some 22) true false false), 22.
  split; [|repeat split; now exists true].
  exists (dataProperty (Some 22) true false false).
  split; [now left|reflexivity].
Defined.

(** X6. A function that is not array-kind and on which a query does not
    abort, at any point of a pass: its [prototype] is omissible exactly when
    it is present with a descriptor that is not configurable, not enumerable,
    writable, and whose value is an object that records this very function
    as its [originalConstructor]. *)
Theorem function_prototype_rule
    (IsArray : Realm.t -> Heap -> Ref -> bool)
    (h : Heap) (r : Realm.t) (log : list (Ref * string)) (calls : list Call)
    (val : Ref) :
  IsArray r h val = false ->
  instanceof h val Class.FunctionValue = true ->
  ~ trips_check IsArray h r val ->
  (fst (canIgnoreProperty IsArray val "prototype"
          (pass_world IsArray h r log calls)) = Return true
   <-> exists desc v,
         live h val "prototype" desc
         /\ Descriptor.configurable desc = false
         /\ Descriptor.enumerable desc = false
         /\ Descriptor.writable desc = true
         /\ Descriptor.value desc = Some v
         /\ instanceof h v Class.ObjectValue = true
         /\ Value.originalConstructor (h v) = Some val).
Proof.
  intros Harr Hfun Hno.
  destruct (pass_world_facts IsArray h r log calls) as (Hh & Hr & Hsound & _).
  set (w := pass_world IsArray h r log calls) in *.
  assert (Hwa : IsArray (realm w) (heap w) val = false) by now rewrite Hh, Hr.
  assert (Hwf : instanceof (heap w) val Class.FunctionValue = true)
    by now rewrite Hh.
  rewrite (proj2 (canIgnoreProperty_outcome IsArray val "prototype" w Hsound)).
  rewrite Hh, Hr. split.
  - intros (_ & desc & Hlive & Hv). exists desc.
    rewrite (decision_function_prototype IsArray _ _ _ Hwa Hwf) in Hv.
    simpl in Hv. rewrite Hh in Hv.
    destruct (Descriptor.value desc) as [v|];
      [|rewrite !andb_false_r in Hv; discriminate].
    injection Hv as Hv.
    rewrite !andb_true_iff, !negb_true_iff, sameRef_true in Hv.
    exists v. simpl in Hv. tauto.
  - intros (desc & v & Hlive & Hco & Hen & Hwr & Hval & Hobj & Hoc).
    split; [exact Hno|]. exists desc. split; [exact Hlive|].
    rewrite (decision_function_prototype IsArray _ _ _ Hwa Hwf). simpl.
    rewrite Hh, Hco, Hen, Hwr, Hval. simpl. rewrite Hobj, Hoc. simpl.
    now rewrite Nat.eqb_refl.
Qed.

(** The [prototype] of function 1 is object 2, which records function 1 as
    its constructor. *)
Lemma function_prototype_rule_witness :
  fst (canIgnoreProperty IsArray_by_class 1 "prototype"
         (pass_world IsArray_by_class sampleHeap sampleRealm [] samplePass))
  = Return true.
Proof.
  apply (function_prototype_rule IsArray_by_class sampleHeap sampleRealm []
           samplePass 1 eq_refl eq_refl).
  - intros (_ & _ & Hsrc & _). discriminate Hsrc.
  - exists (Descriptor.mk (Some 2) true false false), 2.
    split; [|now repeat split].
    exists (dataProperty (Some 2) true false false).
    split; [do 4 right; now left|reflexivity].
Defined.

(** X7. The [constructor] rule is the same for every object, array-kind,
    function, regular expression or other: the decision on a [constructor]
    descriptor returns, changes nothing, and is "omissible" exactly when the
    descriptor is configurable, not enumerable, writable, and its value is
    the object's [originalConstructor] (two absent values being equal); at
    any point of a pass a query about [constructor] answers [true] exactly
    when it does not abort and the property is present with such a
    descriptor. *)
Theorem constructor_rule_everywhere
    (IsArray : Realm.t -> Heap -> Ref -> bool)
    (h : Heap) (r : Realm.t) (log : list (Ref * string)) (calls : list Call)
    (val : Ref) :
  (forall (desc : Descriptor.t) (w : World),
     exists omissible : bool,
       _canIgnoreProperty IsArray val "constructor" desc w
       = (Return omissible, w)
       /\ (omissible = true <->
           Descriptor.configurable desc = true
           /\ Descriptor.enumerable desc = false
           /\ Descriptor.writable desc = true
           /\ Descriptor.value desc = Value.originalConstructor (heap w val)))
  /\ (fst (canIgnoreProperty IsArray val "constructor"
             (pass_world IsArray h r log calls)) = Return true
      <-> ~ trips_check IsArray h r val
          /\ exists desc,
               live h val "constructor" desc
               /\ Descriptor.configurable desc = true
               /\ Descriptor.enumerable desc = false
               /\ Descriptor.writable desc = true
               /\ Descriptor.value desc = Value.originalConstructor (h val)).
Proof.
  assert (Hshape : forall desc (w : World),
            Descriptor.configurable desc
            && negb (Descriptor.enumerable desc)
            && Descriptor.writable desc
            && sameRef (Descriptor.value desc)
                 (Value.originalConstructor (heap w val)) = true
            <-> Descriptor.configurable desc = true
                /\ Descriptor.enumerable desc = false
                /\ Descriptor.writable desc = true
                /\ Descriptor.value desc
                   = Value.originalConstructor (heap w val)).
  { intros desc w.
    rewrite !andb_true_iff, !negb_true_iff, sameRef_true. tauto. }
  split.
  - intros desc w. eexists. split; [apply decision_constructor|apply Hshape].
  - destruct (pass_world_facts IsArray h r log calls) as (Hh & Hr & Hsound & _).
    set (w := pass_world IsArray h r log calls) in *.
    rewrite (proj2 (canIgnoreProperty_outcome IsArray val "constructor" w
                      Hsound)).
    rewrite Hh, Hr. split.
    + intros (Hno & desc & Hlive & Hv). split; [exact Hno|]. exists desc.
      split; [exact Hlive|]. rewrite decision_constructor in Hv.
      injection Hv as Hv. apply Hshape in Hv. now rewrite Hh in Hv.
    + intros (Hno & desc & Hlive & Hflags). split; [exact Hno|]. exists desc.
      split; [exact Hlive|]. rewrite decision_constructor. simpl. f_equal.
      apply Hshape. now rewrite Hh.
Qed.

(** The [constructor] of the prototype object 2 is omissible. *)
Lemma constructor_rule_everywhere_witness :
  fst (canIgnoreProperty IsArray_by_class 2 "constructor"
         (pass_world IsArray_by_class sampleHeap sampleRealm [] samplePass))
  = Return true.
Proof.
  apply (proj2 (constructor_rule_everywhere IsArray_by_class sampleHeap
                  sampleRealm [] samplePass 2)).
  split.
  - intros (_ & Hfun & _). discriminate Hfun.
  - exists (Descriptor.mk (Some 1) true false true). split; [|now repeat split].
    exists (dataProperty (Some 1) true false true).
    split; [now left|reflexivity].
Defined.

(** X8. A property whose name is none of [length], [name], [arguments],
    [caller], [prototype], [lastIndex] and [constructor] is never omissible,
    on any object: the decision returns [false] and changes nothing, and no
    query ever answers [true] for it. *)
Theorem unruled_name_never_omissible
    (IsArray : Realm.t -> Heap -> Ref -> bool)
    (h : Heap) (r : Realm.t) (log : list (Ref * string)) (calls : list Call)
    (val : Ref) (key : string) :
  ~ In key ruled_names ->
  (forall (desc : Descriptor.t) (w : World),
     _canIgnoreProperty IsArray val key desc w = (Return false, w))
  /\ fst (canIgnoreProperty IsArray val key (pass_world IsArray h r log calls))
     <> Return true.
Proof.
  intros Hkey. split.
  - intros desc w. now apply decision_unruled.
  - destruct (pass_world_facts IsArray h r log calls) as (_ & _ & Hsound & _).
    rewrite (proj2 (canIgnoreProperty_outcome IsArray val key _ Hsound)).
    intros (_ & desc & _ & Hv).
    rewrite (decision_unruled IsArray _ _ _ _ Hkey) in Hv. discriminate Hv.
Qed.

(** The element [0] of array 20 has to be serialized. *)
Lemma unruled_name_never_omissible_witness :
  fst (canIgnoreProperty IsArray_by_class 20 "0"
         (pass_world IsArray_by_class sampleHeap2 sampleRealm [] []))
  <> Return true.
Proof.
  apply (unruled_name_never_omissible IsArray_by_class sampleHeap2 sampleRealm
           [] [] 20 "0").
  unfold ruled_names. simpl. intuition discriminate.
Defined.

(** * Further properties: the table, the log, and failure *)

(** X9. Over a heap whose objects have pairwise distinct own property names,
    whatever the calls of a pass, how many and in which order: everything
    the pass adds to the log is the fixed message about a function, not
    array-kind, that owns a present [length] without value slot, and no
    function is reported more than once. *)
Theorem length_accessor_reported_once
    (IsArray : Realm.t -> Heap -> Ref -> bool)
    (h : Heap) (r : Realm.t) (log : list (Ref * string)) (calls : list Call) :
  (forall o, NoDup (Map_keys (Value.properties (h o)))) ->
  exists added,
    logger (pass_world IsArray h r log calls) = log ++ added
    /\ Forall (accessor_length_report IsArray h r) added
    /\ forall v, messages_about v added <= 1.
Proof.
  intros Hnd.
  destruct (run_log IsArray h r calls (newInspector h r log) eq_refl eq_refl)
    as (ms & sc & Hms & Hsc & Hcount & Hall).
  destruct (pass_world_facts IsArray h r log calls) as (_ & _ & _ & Hscans).
  exists ms. split; [exact Hms|]. split; [exact Hall|].
  intros v. etrans; [apply (Hcount Hnd)|].
  unfold pass_world in Hscans. rewrite Hsc in Hscans. simpl in Hscans.
  apply NoDup_ListNoDup in Hscans.
  apply (proj1 (NoDup_count_occ Nat.eq_dec _) Hscans).
Qed.

Lemma sampleHeap_keys_distinct (o : Ref) :
  NoDup (Map_keys (Value.properties (sampleHeap o))).
Proof.
  apply NoDup_ListNoDup.
  do 14 (destruct o as [|o];
         [simpl; repeat constructor; simpl; intuition discriminate|]).
  simpl. constructor.
Defined.

(** Function 3 has an accessor [length]; asked three times about it, among
    other calls, the pass reports it once. *)
Lemma length_accessor_reported_once_witness :
  logger (pass_world IsArray_by_class sampleHeap sampleRealm []
            [Call_canIgnoreProperty 3 "length"; Call_canIgnoreProperty 1 "name";
             Call_canIgnoreProperty 3 "length"; Call_canIgnoreProperty 3 "name"])
  = [(3, length_accessor_message)]
  /\ exists added,
       logger (pass_world IsArray_by_class sampleHeap sampleRealm []
                 [Call_canIgnoreProperty 3 "length";
                  Call_canIgnoreProperty 1 "name";
                  Call_canIgnoreProperty 3 "length";
                  Call_canIgnoreProperty 3 "name"])
       = [] ++ added
       /\ messages_about 3 added <= 1.
Proof.
  split; [reflexivity|].
  destruct (length_accessor_reported_once IsArray_by_class sampleHeap
              sampleRealm []
              [Call_canIgnoreProperty 3 "length"; Call_canIgnoreProperty 1 "name";
               Call_canIgnoreProperty 3 "length"; Call_canIgnoreProperty 3 "name"]
              sampleHeap_keys_distinct) as (added & Hlog & _ & Honce).
  exists added. split; [exact Hlog|apply Honce].
Defined.

(** X10. A query touches one entry of the table, the one of the object asked
    about, in any world: every other entry is as before; when the query
    returns, the entry of the object holds a set and the answer is the
    membership of the key in that set; when it aborts, the table is
    unchanged. *)
Theorem canIgnoreProperty_touches_one_entry
    (IsArray : Realm.t -> Heap -> Ref -> bool)
    (val : Ref) (key : string) (w : World) :
  (forall v, v <> val ->
     ignoredProperties (snd (canIgnoreProperty IsArray val key w)) !! v
     = ignoredProperties w !! v)
  /\ (forall b,
        fst (canIgnoreProperty IsArray val key w) = Return b ->
        exists set,
          ignoredProperties (snd (canIgnoreProperty IsArray val key w)) !! val
          = Some set
          /\ b = Set_has set key)
  /\ (fst (canIgnoreProperty IsArray val key w) = InvariantViolation ->
      ignoredProperties (snd (canIgnoreProperty IsArray val key w))
      = ignoredProperties w).
Proof.
  destruct (ignoredProperties w !! val) as [set|] eqn:Ememo.
  - rewrite (canIgnoreProperty_cached IsArray _ _ _ _ Ememo). simpl.
    split; [reflexivity|]. split; [|discriminate].
    intros b [= <-]. now exists set.
  - rewrite (canIgnoreProperty_first IsArray _ _ _ Ememo).
    pose proof (_getIgnoredProperties_frame IsArray val w)
      as (_ & _ & Hm & _).
    destruct (_getIgnoredProperties IsArray val w) as [[set|] w1]; simpl in *.
    + split; [|split; [|discriminate]].
      * intros v Hv. rewrite Hm. now apply lookup_insert_ne.
      * intros b [= <-]. exists set. split; [apply lookup_insert_eq|reflexivity].
    + split; [|split; [discriminate|]].
      * intros v _. now rewrite Hm.
      * intros _. exact Hm.
Qed.

(** After the first query about function 1 the table holds its set, and
    nothing for function 3. *)
Lemma canIgnoreProperty_touches_one_entry_witness :
  ignoredProperties
    (snd (canIgnoreProperty IsArray_by_class 1 "name" sampleWorld)) !! 3 = None
  /\ exists set,
       ignoredProperties
         (snd (canIgnoreProperty IsArray_by_class 1 "name" sampleWorld)) !! 1
       = Some set
       /\ true = Set_has set "name".
Proof.
  destruct (canIgnoreProperty_touches_one_entry IsArray_by_class 1 "name"
              sampleWorld) as (Hother & Hown & _).
  split.
  - etrans; [apply (Hother 3); discriminate|reflexivity].
  - apply Hown. reflexivity.
Defined.

(** X11. A failure is not memoized and comes back: when a query about an
    object aborts, in any world, every later query about that object, for
    whatever key, aborts as well. *)
Theorem canIgnoreProperty_abort_repeats
    (IsArray : Realm.t -> Heap -> Ref -> bool)
    (val : Ref) (key key' : string) (w : World) :
  fst (canIgnoreProperty IsArray val key w) = InvariantViolation ->
  ignoredProperties (snd (canIgnoreProperty IsArray val key w)) !! val = None
  /\ fst (canIgnoreProperty IsArray val key'
            (snd (canIgnoreProperty IsArray val key w)))
     = InvariantViolation.
Proof.
  destruct (ignoredProperties w !! val) as [set|] eqn:Ememo.
  { rewrite (canIgnoreProperty_cached IsArray _ _ _ _ Ememo). discriminate. }
  rewrite (canIgnoreProperty_first IsArray _ _ _ Ememo).
  pose proof (_getIgnoredProperties_frame IsArray val w)
    as (Hh & Hr & Hm & _).
  destruct (_getIgnoredProperties IsArray val w) as [[set|] w1] eqn:Escan;
    simpl in *; [discriminate|].
  intros _. assert (Hmiss : ignoredProperties w1 !! val = None)
    by now rewrite Hm.
  split; [exact Hmiss|].
  rewrite (canIgnoreProperty_first IsArray _ _ _ Hmiss).
  pose proof (_getIgnoredProperties_verdict IsArray val w1 w Hh Hr) as Hsame.
  rewrite Escan in Hsame. simpl in Hsame.
  destruct (_getIgnoredProperties IsArray val w1) as [[set'|] w2];
    [discriminate|reflexivity].
Qed.

(** The native function 8 makes every query about it abort. *)
Lemma canIgnoreProperty_abort_repeats_witness :
  fst (canIgnoreProperty IsArray_by_class 8 "name"
         (snd (canIgnoreProperty IsArray_by_class 8 "caller" sampleWorld)))
  = InvariantViolation.
Proof.
  apply (canIgnoreProperty_abort_repeats IsArray_by_class 8 "caller" "name"
           sampleWorld).
  reflexivity.
Defined.

(** * Further properties: default prototypes and property values *)

(** X12. The two detectors agree on a default prototype: when
    [isDefaultPrototype] accepts an object whose [constructor] binding has a
    descriptor with the flags the runtime gives it (configurable, not
    enumerable, writable), then, at that point of the pass, [constructor] is
    the only own property name of the object and a query judges it
    omissible: nothing of the object is left to serialize. *)
Theorem default_prototype_constructor_omissible
    (IsArray : Realm.t -> Heap -> Ref -> bool)
    (h : Heap) (r : Realm.t) (log : list (Ref * string)) (calls : list Call)
    (prototype : Ref) (binding : PropertyBinding.t) (desc : Descriptor.t) :
  isDefaultPrototype (pass_world IsArray h r log calls) prototype = true ->
  Map_get (Value.properties (h prototype)) "constructor" = Some binding ->
  PropertyBinding.descriptor binding = Some desc ->
  Descriptor.configurable desc = true ->
  Descriptor.enumerable desc = false ->
  Descriptor.writable desc = true ->
  (forall key, In key (Map_keys (Value.properties (h prototype))) ->
               key = "constructor")
  /\ fst (canIgnoreProperty IsArray prototype "constructor"
            (pass_world IsArray h r log calls)) = Return true.
Proof.
  intros Hdefault Hget Hdesc Hco Hen Hwr.
  destruct (pass_world_facts IsArray h r log calls) as (Hh & Hr & Hsound & _).
  set (w := pass_world IsArray h r log calls) in *.
  unfold isDefaultPrototype in Hdefault. cbv zeta in Hdefault.
  rewrite Hh in Hdefault.
  destruct (_ || _) in Hdefault; [discriminate|].
  apply isDefaultPrototype_loop_true in Hdefault.
  destruct Hdefault as [Hall [[_ Hf]|[_ Hvalue]]]; [discriminate|].
  assert (Hnames : forall key,
            In key (Map_keys (Value.properties (h prototype))) ->
            key = "constructor").
  { intros key Hin. rewrite List.Forall_forall in Hall. now apply Hall. }
  split; [exact Hnames|].
  apply (proj2 (canIgnoreProperty_outcome IsArray prototype "constructor" w
                  Hsound)).
  rewrite Hh, Hr. split.
  - intros (_ & _ & _ & key & d & (b & Hin & _) & Hkey).
    assert (Hc : key = "constructor").
    { apply Hnames. unfold Map_keys. change key with (fst (key, b)).
      now apply in_map. }
    subst key. destruct Hkey; discriminate.
  - exists desc. split.
    + exists binding. split; [now apply Map_get_In|exact Hdesc].
    + rewrite decision_constructor. simpl. rewrite Hh.
      unfold getPropertyValue in Hvalue. rewrite Hget, Hdesc in Hvalue.
      rewrite Hco, Hen, Hwr, Hvalue. simpl.
      now rewrite (proj2 (sameRef_true _ _) eq_refl).
Qed.

(** Object 2, the prototype of function 1. *)
Lemma default_prototype_constructor_omissible_witness :
  fst (canIgnoreProperty IsArray_by_class 2 "constructor"
         (pass_world IsArray_by_class sampleHeap sampleRealm [] samplePass))
  = Return true.
Proof.
  apply (default_prototype_constructor_omissible IsArray_by_class sampleHeap
           sampleRealm [] samplePass 2
           (dataProperty (Some 1) true false true)
           (Descriptor.mk (Some 1) true false true));
    reflexivity.
Defined.

(** X13. For an object whose own property names are pairwise distinct,
    [getPropertyValue] returns a value exactly when the object owns a
    present property of that name whose descriptor holds that value in its
    value slot; so a returned value always comes from a present data
    property of the object itself. *)
Theorem getPropertyValue_some_exactly (h : Heap) (val : Ref) (name : string)
    (v : Ref) :
  NoDup (Map_keys (Value.properties (h val))) ->
  (getPropertyValue h val name = Some v
   <-> exists desc, live h val name desc /\ Descriptor.value desc = Some v).
Proof.
  intros Hnd. unfold getPropertyValue. split.
  - destruct (Map_get (Value.properties (h val)) name) as [binding|] eqn:Hget;
      [|discriminate].
    destruct (PropertyBinding.descriptor binding) as [desc|] eqn:Hdesc;
      [|discriminate].
    intros Hvalue. exists desc. split; [|exact Hvalue].
    exists binding. split; [now apply Map_get_In|exact Hdesc].
  - intros (desc & (binding & Hin & Hdesc) & Hvalue).
    now rewrite (Map_get_NoDup _ _ _ Hnd Hin), Hdesc.
Qed.

(** The [prototype] of function 1 is object 2. *)
Lemma getPropertyValue_some_exactly_witness :
  getPropertyValue sampleHeap 1 "prototype" = Some 2.
Proof.
  apply (getPropertyValue_some_exactly sampleHeap 1 "prototype" 2
           (sampleHeap_keys_distinct 1)).
  exists (Descriptor.mk (Some 2) true false false). split; [|reflexivity].
  exists (dataProperty (Some 2) true false false).
  split; [do 4 right; now left|reflexivity].
Defined.

(** * Further properties: source-defined functions *)

Section Function_decisions.

Variable IsArray : Realm.t -> Heap -> Ref -> bool.

Lemma decision_function_length (val : Ref) (desc : Descriptor.t) (w : World) :
  IsArray (realm w) (heap w) val = false ->
  instanceof (heap w) val Class.FunctionValue = true ->
  fst (_canIgnoreProperty IsArray val "length" desc w)
  = Return (length_shape w val desc).
Proof.
  intros Harr Hfun. unfold _canIgnoreProperty, length_shape. unfold_monad.
  rewrite Harr, Hfun. cbn [String.eqb Ascii.eqb Bool.eqb].
  destruct (Descriptor.value desc); reflexivity.
Qed.

Lemma decision_function_name (val : Ref) (desc : Descriptor.t) (w : World) :
  IsArray (realm w) (heap w) val = false ->
  instanceof (heap w) val Class.FunctionValue = true ->
  fst (_canIgnoreProperty IsArray val "name" desc w)
  = Return (negb (name_retained w val desc)).
Proof.
  intros Harr Hfun. unfold _canIgnoreProperty. unfold_monad.
  rewrite Harr, Hfun. cbn [String.eqb Ascii.eqb Bool.eqb].
  destruct (name_retained w val desc); reflexivity.
Qed.

Lemma decision_function_poison_pill (val : Ref) (key : string)
    (desc : Descriptor.t) (w : World) :
  IsArray (realm w) (heap w) val = false ->
  instanceof (heap w) val Class.FunctionValue = true ->
  instanceof (heap w) val Class.ECMAScriptSourceFunctionValue = true ->
  key = "arguments" \/ key = "caller" ->
  fst (_canIgnoreProperty IsArray val key desc w)
  = Return (negb (Value._Strict (heap w val))
            && String.eqb (Value._FunctionKind (heap w val)) "normal"
            && poison_pill_shape w desc).
Proof.
  intros Harr Hfun Hsrc Hkey.
  unfold _canIgnoreProperty, poison_pill_shape, constructor_rule.
  unfold_monad. rewrite Harr, Hfun, Hsrc.
  destruct Hkey as [-> | ->]; cbn [String.eqb Ascii.eqb Bool.eqb orb andb];
    destruct (Value._Strict (heap w val)),
      (String.eqb (Value._FunctionKind (heap w val)) "normal"),
      (Descriptor.writable desc), (Descriptor.enumerable desc),
      (Descriptor.configurable desc),
      (instanceof_opt (heap w) (Descriptor.value desc) Class.UndefinedValue);
    reflexivity.
Qed.

End Function_decisions.

(** X14. A source-defined function that is not array-kind, at any point of a
    pass: a query about it never aborts; its [length] is omissible exactly
    when it is present with a descriptor that is not writable, not
    enumerable, configurable, and the function has its default length; its
    [arguments], and likewise its [caller], is omissible exactly when the
    function is not strict, of kind "normal", and the property is present
    with a descriptor that is writable, not enumerable, configurable and
    holds an undefined value; and in a realm compatible with the legacy
    engine its [name] is omissible as soon as it is present, whatever it
    holds. *)
Theorem source_function_rules
    (IsArray : Realm.t -> Heap -> Ref -> bool)
    (h : Heap) (r : Realm.t) (log : list (Ref * string)) (calls : list Call)
    (val : Ref) :
  IsArray r h val = false ->
  instanceof h val Class.FunctionValue = true ->
  instanceof h val Class.ECMAScriptSourceFunctionValue = true ->
  (forall key,
     fst (canIgnoreProperty IsArray val key (pass_world IsArray h r log calls))
     <> InvariantViolation)
  /\ (fst (canIgnoreProperty IsArray val "length"
             (pass_world IsArray h r log calls)) = Return true
      <-> exists desc,
            live h val "length" desc
            /\ Descriptor.writable desc = false
            /\ Descriptor.enumerable desc = false
            /\ Descriptor.configurable desc = true
            /\ Value.hasDefaultLength (h val) = true)
  /\ (forall key,
        key = "arguments" \/ key = "caller" ->
        (fst (canIgnoreProperty IsArray val key
                (pass_world IsArray h r log calls)) = Return true
         <-> Value._Strict (h val) = false
             /\ Value._FunctionKind (h val) = "normal"
             /\ exists desc v,
                  live h val key desc
                  /\ Descriptor.writable desc = true
                  /\ Descriptor.enumerable desc = false
                  /\ Descriptor.configurable desc = true
                  /\ Descriptor.value desc = Some v
                  /\ instanceof h v Class.UndefinedValue = true))
  /\ (Realm.isCompatibleWith r (Realm.MOBILE_JSC_VERSION r) = true ->
      (fst (canIgnoreProperty IsArray val "name"
              (pass_world IsArray h r log calls)) = Return true
       <-> exists desc, live h val "name" desc)).
Proof.
  intros Harr Hfun Hsrc.
  destruct (pass_world_facts IsArray h r log calls) as (Hh & Hr & Hsound & _).
  set (w := pass_world IsArray h r log calls) in *.
  assert (Hwa : IsArray (realm w) (heap w) val = false) by now rewrite Hh, Hr.
  assert (Hwf : instanceof (heap w) val Class.FunctionValue = true)
    by now rewrite Hh.
  assert (Hws : instanceof (heap w) val Class.ECMAScriptSourceFunctionValue
                = true) by now rewrite Hh.
  assert (Hno : ~ trips_check IsArray (heap w) (realm w) val).
  { intros (_ & _ & Hnot & _). congruence. }
  split; [|split; [|split]].
  - intros key Ha.
    now apply (proj1 (canIgnoreProperty_outcome IsArray val key w Hsound)) in Ha.
  - rewrite (proj2 (canIgnoreProperty_outcome IsArray val "length" w Hsound)).
    rewrite Hh. split.
    + intros (_ & desc & Hlive & Hv). exists desc. split; [exact Hlive|].
      rewrite (decision_function_length IsArray _ _ _ Hwa Hwf) in Hv.
      injection Hv as Hv. unfold length_shape in Hv. rewrite Hh in Hv.
      rewrite !andb_true_iff, !negb_true_iff in Hv. tauto.
    + intros (desc & Hlive & Hwr & Hen & Hco & Hlen).
      split; [now rewrite <- Hh|]. exists desc. split; [exact Hlive|].
      rewrite (decision_function_length IsArray _ _ _ Hwa Hwf).
      unfold length_shape. now rewrite Hh, Hwr, Hen, Hco, Hlen.
  - intros key Hkey.
    rewrite (proj2 (canIgnoreProperty_outcome IsArray val key w Hsound)).
    rewrite Hh. split.
    + intros (_ & desc & Hlive & Hv).
      rewrite (decision_function_poison_pill IsArray _ _ _ _ Hwa Hwf Hws Hkey)
        in Hv.
      injection Hv as Hv. unfold poison_pill_shape in Hv. rewrite Hh in Hv.
      rewrite !andb_true_iff, !negb_true_iff in Hv.
      destruct Hv as [[Hstrict Hkind] [[[Hwr Hen] Hco] Hundef]].
      apply String.eqb_eq in Hkind.
      split; [exact Hstrict|]. split; [exact Hkind|].
      destruct (Descriptor.value desc) as [v|] eqn:Hval; [|discriminate].
      exists desc, v. now repeat split.
    + intros (Hstrict & Hkind & desc & v & Hlive & Hwr & Hen & Hco & Hval & Hu).
      split; [now rewrite <- Hh|]. exists desc. split; [exact Hlive|].
      rewrite (decision_function_poison_pill IsArray _ _ _ _ Hwa Hwf Hws Hkey).
      unfold poison_pill_shape.
      rewrite Hh, Hstrict, Hkind, Hwr, Hen, Hco, Hval. simpl. now rewrite Hu.
  - intros Hlegacy.
    rewrite (proj2 (canIgnoreProperty_outcome IsArray val "name" w Hsound)).
    rewrite Hh.
    assert (Hname : forall desc,
              fst (_canIgnoreProperty IsArray val "name" desc w) = Return true).
    { intros desc. rewrite (decision_function_name IsArray _ _ _ Hwa Hwf).
      unfold name_retained. rewrite Hr, Hlegacy.
      destruct (Descriptor.value desc); reflexivity. }
    split.
    + intros (_ & desc & Hlive & _). now exists desc.
    + intros (desc & Hlive). split; [now rewrite <- Hh|].
      exists desc. split; [exact Hlive|apply Hname].
Qed.

(** Function 1 has the [length] and the [arguments] the runtime gave it; the
    strict function 3 does not get its [arguments] omitted. *)
Lemma source_function_rules_witness :
  fst (canIgnoreProperty IsArray_by_class 1 "length"
         (pass_world IsArray_by_class sampleHeap sampleRealm [] samplePass))
  = Return true
  /\ fst (canIgnoreProperty IsArray_by_class 1 "arguments"
            (pass_world IsArray_by_class sampleHeap sampleRealm [] samplePass))
     = Return true
  /\ fst (canIgnoreProperty IsArray_by_class 3 "arguments"
            (pass_world IsArray_by_class sampleHeap sampleRealm [] samplePass))
     <> Return true.
Proof.
  destruct (source_function_rules IsArray_by_class sampleHeap sampleRealm []
              samplePass 1 eq_refl eq_refl eq_refl)
    as (_ & Hlength & Hpill & _).
  destruct (source_function_rules IsArray_by_class sampleHeap sampleRealm []
              samplePass 3 eq_refl eq_refl eq_refl)
    as (_ & _ & Hpill' & _).
  split; [|split].
  - apply Hlength. exists (Descriptor.mk (Some 10) false false true).
    split; [|now repeat split].
    exists (dataProperty (Some 10) false false true).
    split; [now left|reflexivity].
  - apply (Hpill "arguments" (or_introl eq_refl)).
    split; [reflexivity|]. split; [reflexivity|].
    exists poisonPill, 12. split; [|now repeat split].
    exists (dataProperty (Some 12) true false true).
    split; [do 2 right; now left|reflexivity].
  - intros Hyes. apply (Hpill' "arguments" (or_introl eq_refl)) in Hyes.
    destruct Hyes as (Hstrict & _). discriminate Hstrict.
Defined.
